(** * accent/server/firestore.py: the Firestore facade and the Google
    Calendar credential storage

    A shallow embedding of [Firestore] and [GoogleCalendarStorage] over a
    functional model of the document database, the log and the OAuth2 token
    endpoint, together with the properties of the storage layer.

    In order:
    - the document store (values, documents, merge-write and field update);
    - the effects of the module (a state and exception monad over the world:
      database, log, token requests);
    - the oauth2client objects the module drives ([OAuth2Credentials]);
    - the module itself, function by function;
    - a test bench, and the properties of the facade and of the storage.

    Threads and the lock of [Storage], and the initialisation of Firebase in
    [Firestore.__init__], are outside the model: a [Firestore()] is a handle
    on the one database of the world. *)

From stdpp Require Import gmap strings list fin_maps pretty.

#[local] Set Warnings "-register-all".
#[local] Open Scope Z_scope.

(** ** The document store *)

(** A field value. Maps nest; the other kinds of Firestore values
    (timestamps, arrays, references, bytes) play no part in this module.
    The store holds 64-bit integers: [VInt z] is a value of the store for
    [z] in that range only, and the client refuses to encode any other
    ([storable], below, says which values it takes). *)
Inductive value :=
| VNull
| VBool (b : bool)
| VInt (z : Z)
| VStr (s : string)
| VMap (m : gmap string value).

(** One entry of an [update] payload: a value to store, or the
    [DELETE_FIELD] sentinel. *)
Inductive field_write :=
| Assign (v : value)
| DELETE_FIELD.

(** [DocumentReference.set(data, merge=True)]: every leaf of [data] is
    written and everything else is kept. A map in [data] is merged into the
    map already there, key by key; an empty map and every other value replace
    what was there. *)
Fixpoint merge_value (new : value) (old : option value) {struct new} : value :=
  match new with
  | VMap m =>
      if decide (m = ∅) then VMap ∅
      else
        let base := match old with Some (VMap o) => o | _ => ∅ end in
        VMap (map_imap (λ k w, Some (merge_value w (base !! k))) m ∪ base)
  | v => v
  end.

Definition merge_write (data doc : gmap string value) : gmap string value :=
  map_imap (λ k w, Some (merge_value w (doc !! k))) data ∪ doc.

(** [DocumentReference.update(fields)] on the data of an existing document:
    each named field is replaced by its new value, or removed when the payload
    carries the sentinel. Keys are plain field names, as in the two payloads
    this module builds; dotted paths into nested maps are not modelled. *)
Definition apply_write (w : option field_write) (old : option value) : option value :=
  match w with
  | Some (Assign v) => Some v
  | Some DELETE_FIELD => None
  | None => old
  end.

Definition field_update (fields : gmap string field_write)
    (doc : gmap string value) : gmap string value :=
  merge apply_write fields doc.

(** The three collections of the database, each from document id to the
    fields of the document; [collection.users d] is
    [db.collection('users')]. *)
Module collection.
Record Database := {
  api_keys : gmap string (gmap string value);
  oauth_clients : gmap string (gmap string value);
  users : gmap string (gmap string value)
}.
End collection.
Abbreviation Database := collection.Database.

Definition with_users (us : gmap string (gmap string value)) (d : Database) : Database :=
  {| collection.api_keys := collection.api_keys d;
     collection.oauth_clients := collection.oauth_clients d;
     collection.users := us |}.

(** ** Effects: database, log and token requests *)

Inductive level := INFO | WARNING | ERROR.

(** What the credentials send to the token endpoint for a refresh. *)
Record token_request := {
  rq_token_uri : string;
  rq_client_id : string;
  rq_client_secret : string;
  rq_refresh_token : string
}.

Record World := {
  db : Database;
  log : list (level * string);          (* oldest first *)
  token_requests : list token_request   (* oldest first *)
}.

Inductive exn :=
| DataError (msg : string)
| KeyError (field : string)
| ValueError
| NotFound
| HttpAccessTokenRefreshError (msg : string) (status : Z)
| TransportError.

Inductive outcome (A : Type) :=
| Return (a : A)
| Raise (e : exn).
Arguments Return {A} a.
Arguments Raise {A} e.

(** A computation runs in a world and ends in a value or an exception; the
    effects made before an exception stay. *)
Definition M (A : Type) : Type := World → outcome A * World.

#[global] Instance M_ret : MRet M := λ A a w, (Return a, w).

#[global] Instance M_bind : MBind M := λ A B f m w,
  match m w with
  | (Return a, w') => f a w'
  | (Raise e, w') => (Raise e, w')
  end.

Definition raise {A} (e : exn) : M A := λ w, (Raise e, w).

(** [try: body except <exceptions matched by handler>: handler]. *)
Definition try_except {A} (body : M A) (handler : exn → option (M A)) : M A :=
  λ w, match body w with
       | (Raise e, w') =>
           match handler e with
           | Some h => h w'
           | None => (Raise e, w')
           end
       | r => r
       end.

Definition lift {A} (o : outcome A) : M A := λ w, (o, w).

(** The world after one more log record, one more token request, or with
    another database. *)
Definition logged (l : level) (msg : string) (w : World) : World :=
  {| db := db w; log := log w ++ [(l, msg)]; token_requests := token_requests w |}.

Definition requested (rq : token_request) (w : World) : World :=
  {| db := db w; log := log w; token_requests := token_requests w ++ [rq] |}.

Definition set_db (d : Database) (w : World) : World :=
  {| db := d; log := log w; token_requests := token_requests w |}.

Definition logging (l : level) (msg : string) : M unit :=
  λ w, (Return tt, logged l msg w).

Definition info := logging INFO.
Definition warning := logging WARNING.
Definition error := logging ERROR.

(** [collection(c).document(id).get()]: the snapshot of the document, [None]
    when it does not exist ([snapshot.exists] is false). This is the read of
    an [id] that is a document id ([valid_document_id], below): for an id
    with a slash the client raises or reads a document of a sub-collection,
    which is not modelled, and no document is stored under such an id. *)
Definition document_get (c : Database → gmap string (gmap string value))
    (id : string) : M (option (gmap string value)) :=
  λ w, (Return (c (db w) !! id), w).

(** [DocumentSnapshot.get(field)] on an existing document. *)
Definition snapshot_get (snapshot : gmap string value) (field : string) : outcome value :=
  match snapshot !! field with
  | Some v => Return v
  | None => Raise (KeyError field)
  end.

(** The world in which the user document [key] has the fields [doc]. *)
Definition stored (key : string) (doc : gmap string value) (w : World) : World :=
  set_db (with_users (<[key := doc]> (collection.users (db w))) (db w)) w.

(** [collection('users').document(key).set(data, merge=True)]: a document
    that does not exist yet is created. This is the write the store makes of
    a key and data it takes ([accepted_set], below); for a key that is not a
    document id, or data the client cannot encode, the real call raises or
    writes elsewhere, which is not modelled. *)
Definition document_set_merge (key : string) (data : gmap string value) : M unit :=
  λ w, (Return tt,
        stored key (merge_write data (default ∅ (collection.users (db w) !! key))) w).

(** [collection('users').document(key).update(fields)]: the client refuses
    to update a document that does not exist. This is the update the store
    makes of a payload it takes ([accepted_update], below); for any other the
    real call raises and writes nothing, which is not modelled. *)
Definition document_update (key : string) (fields : gmap string field_write) : M unit :=
  λ w, match collection.users (db w) !! key with
       | None => (Raise NotFound, w)
       | Some doc => (Return tt, stored key (field_update fields doc) w)
       end.

(** ** oauth2client: [OAuth2Credentials] *)

(** The serialised state of a credential object: what [to_json] writes and
    [from_json] restores. [token_expiry] is a UTC time in seconds, [None]
    for a token that does not expire. (The attributes that only describe the
    last token response, [id_token], [scopes] and the like, are left out.) *)
Record Credentials := {
  access_token : string;
  client_id : string;
  client_secret : string;
  refresh_token : string;
  token_expiry : option Z;
  token_uri : string;
  user_agent : string;
  invalid : bool
}.

(** [GoogleCalendarStorage(key)]. Its [Firestore()] wraps the one database
    of the process and its lock is taken by the caller ([Storage.get], [put],
    [delete]); the key is all that tells two instances apart. *)
Record GoogleCalendarStorage := { _key : string }.

(** A live credential object: its state and the store attached with
    [set_store], [None] for an object fresh from the constructor. *)
Record OAuth2Credentials := {
  state : Credentials;
  store : option GoogleCalendarStorage
}.

Definition set_store (s : GoogleCalendarStorage) (c : OAuth2Credentials) : OAuth2Credentials :=
  {| state := state c; store := Some s |}.

(** The reply of the token endpoint to a refresh request. *)
Inductive token_response :=
| TokenGranted (new_access_token : string) (new_refresh_token : option string)
    (expires_in : option Z)
    (* status 200 with a well-formed body *)
| TokenRefused (status : Z) (error_in_body : option string)
    (* any other status; the [error] (and description) of the body if it
       is a JSON object that has one *)
| TransportFailure.
    (* no usable reply: the request itself raised, or the body of a 200
       could not be read *)

(** What this module takes from outside: the JSON codec of the credentials,
    the clock, and the token endpoint behind [build_http()]. *)
Class Collaborators := {
  (** [credentials.to_json()] *)
  to_json : Credentials → string;
  (** [OAuth2Credentials.from_json(blob)]: the state read back, [None] when
      the call raises ([blob] is not text, is not JSON, or lacks a member). *)
  from_json : value → option Credentials;
  (** the time of [_UTCNOW()] *)
  utcnow : Z;
  (** the reply to a refresh request, given the requests made before it *)
  token_endpoint : list token_request → token_request → token_response
}.

(** [credentials.access_token_expired]. *)
Definition access_token_expired {env : Collaborators} (c : Credentials) : bool :=
  if invalid c then true
  else match token_expiry c with
       | None => false
       | Some expiry => bool_decide (expiry ≤ utcnow)
       end.

Definition refresh_request (c : Credentials) : token_request :=
  {| rq_token_uri := token_uri c; rq_client_id := client_id c;
     rq_client_secret := client_secret c; rq_refresh_token := refresh_token c |}.

(** The POST to the token endpoint: the request is recorded and answered. *)
Definition post_token_request {env : Collaborators} (rq : token_request) : M token_response :=
  λ w, (Return (token_endpoint (token_requests w) rq), requested rq w).

Definition granted (c : Credentials) (tok : string) (rt : option string)
    (expiry : option Z) : Credentials :=
  {| access_token := tok; client_id := client_id c;
     client_secret := client_secret c;
     refresh_token := default (refresh_token c) rt;
     token_expiry := expiry; token_uri := token_uri c;
     user_agent := user_agent c; invalid := false |}.

(** The message of the [HttpAccessTokenRefreshError] raised for a refusal:
    the error named by the body, or else the status. *)
Definition refusal_message (status : Z) (err : option string) : string :=
  match err with
  | Some msg => msg
  | None => "Invalid response " +:+ pretty status +:+ "."
  end.

Definition invalidated (c : Credentials) : Credentials :=
  {| access_token := access_token c; client_id := client_id c;
     client_secret := client_secret c; refresh_token := refresh_token c;
     token_expiry := token_expiry c; token_uri := token_uri c;
     user_agent := user_agent c; invalid := true |}.

(** ** The module *)

Definition credentials_field : string := "google_calendar_credentials".

Section Firestore.
Context {env : Collaborators}.

Definition _api_key (service : string) : M value :=
  api_key ← document_get collection.api_keys service;
  match api_key with
  | None => raise (DataError ("Missing API key for: " +:+ service))
  | Some snapshot => lift (snapshot_get snapshot "api_key")
  end.

Definition google_maps_api_key : M value := _api_key "google_maps".

Definition open_weather_api_key : M value := _api_key "open_weather".

Definition google_calendar_secrets : M (gmap string value) :=
  secrets ← document_get collection.oauth_clients "google_calendar";
  match secrets with
  | None => raise (DataError "Missing Google Calendar secrets")
  | Some snapshot => mret snapshot
  end.

(** [user(key)]: the snapshot, or [None] with a warning. *)
Definition user (key : string) : M (option (gmap string value)) :=
  user ← document_get collection.users key;
  match user with
  | None => warning "User not found.";; mret None
  | Some _ => mret user
  end.

(** [users()]: the stream over the collection, in the order of the store. *)
Definition users : M (list (string * gmap string value)) :=
  λ w, (Return (map_to_list (collection.users (db w))), w).

Definition set_user (key : string) (data : gmap string value) : M unit :=
  document_set_merge key data.

Definition update_user (key : string) (fields : gmap string field_write) : M unit :=
  user ← document_get collection.users key;
  match user with
  | None => error "User not found for update."
  | Some _ => document_update key fields
  end.

Definition update_google_calendar_credentials (key : string)
    (credentials : OAuth2Credentials) : M unit :=
  update_user key {[ credentials_field := Assign (VStr (to_json (state credentials))) ]}.

Definition delete_google_calendar_credentials (key : string) : M unit :=
  update_user key {[ credentials_field := DELETE_FIELD ]}.

Definition locked_put (self : GoogleCalendarStorage) (credentials : OAuth2Credentials) : M unit :=
  update_google_calendar_credentials (_key self) credentials.

Definition locked_delete (self : GoogleCalendarStorage) : M unit :=
  delete_google_calendar_credentials (_key self).

(** [OAuth2Credentials._do_refresh_request]. A grant replaces the tokens and
    clears [invalid]; a refusal raises [HttpAccessTokenRefreshError], after
    marking the credentials invalid when the body names an error. Either
    change is saved through the attached store, if there is one. The object
    is updated in place: the result is its new state, and the state left
    behind by a refusal is not used by any caller in this module. *)
Definition do_refresh_request (self : OAuth2Credentials) : M OAuth2Credentials :=
  resp ← post_token_request (refresh_request (state self));
  match resp with
  | TokenGranted tok rt expires_in =>
      let self' := {| state := granted (state self) tok rt
                                 ((λ s, s + utcnow) <$> expires_in);
                      store := store self |} in
      match store self with
      | Some s => locked_put s self'
      | None => mret tt
      end;;
      mret self'
  | TokenRefused status err =>
      match err, store self with
      | Some _, Some s =>
          locked_put s {| state := invalidated (state self); store := store self |}
      | _, _ => mret tt
      end;;
      raise (HttpAccessTokenRefreshError (refusal_message status err) status)
  | TransportFailure => raise TransportError
  end.

(** [google_calendar_credentials] calls [credentials.refresh], and [refresh]
    on an object that has a store calls [locked_get] of that store, which is
    [google_calendar_credentials] again. Python binds the method late; here
    the two functions are first written over any [refresh], then [refresh] is
    defined, and last the two are closed over it. *)
Section LateBound.
Variable refresh : OAuth2Credentials → M OAuth2Credentials.

Definition google_calendar_credentials_over (key : string) : M (option OAuth2Credentials) :=
  (* Look up the user from the key. *)
  user ← user key;
  match user with
  | None => mret None
  | Some user =>
      (* Load the credentials from storage. *)
      match snapshot_get user credentials_field with
      | Raise (KeyError _) =>
          warning "Failed to load Google Calendar credentials.";; mret None
      | Raise e => raise e
      | Return json =>
          (* Use the valid credentials. [from_json] builds a new object,
             without a store, or raises; an object is never falsy. *)
          match from_json json with
          | None => raise ValueError
          | Some st =>
              let credentials := {| state := st; store := None |} in
              if negb (invalid (state credentials)) then mret (Some credentials)
              else
                (* Credentials are missing or refresh failed. *)
                let deleting : M (option OAuth2Credentials) :=
                  warning "Deleting Google Calendar credentials.";;
                  delete_google_calendar_credentials key;;
                  mret None in
                (* Handle invalidation and expiration. *)
                if access_token_expired (state credentials) then
                  try_except
                    (info "Refreshing Google Calendar credentials.";;
                     credentials ← refresh credentials;
                     mret (Some credentials))
                    (λ e, match e with
                          | HttpAccessTokenRefreshError msg _ =>
                              Some (warning ("Google Calendar refresh failed: " +:+ msg);;
                                    deleting)
                          | _ => None
                          end)
                else deleting
          end
      end
  end.

Definition locked_get_over (self : GoogleCalendarStorage) : M (option OAuth2Credentials) :=
  credentials ← google_calendar_credentials_over (_key self);
  match credentials with
  | None => mret None
  | Some credentials => mret (Some (set_store self credentials))
  end.

End LateBound.

(** [OAuth2Credentials.refresh] ([_refresh]). Without a store the request is
    made at once. With a store the credentials are first read again through
    it, and taken over if they are valid, unexpired and carry another access
    token; otherwise the request is made. The [locked_get] of that inner read
    only ever refreshes objects [from_json] has just built, which have no
    store. *)
Definition refresh (self : OAuth2Credentials) : M OAuth2Credentials :=
  match store self with
  | None => do_refresh_request self
  | Some s =>
      new_cred ← locked_get_over do_refresh_request s;
      match new_cred with
      | Some new_cred =>
          if negb (invalid (state new_cred))
             && negb (bool_decide (access_token (state new_cred)
                                   = access_token (state self)))
             && negb (access_token_expired (state new_cred))
          then mret {| state := state new_cred; store := store self |}
          else do_refresh_request self
      | None => do_refresh_request self
      end
  end.

Definition google_calendar_credentials : string → M (option OAuth2Credentials) :=
  google_calendar_credentials_over refresh.

Definition locked_get : GoogleCalendarStorage → M (option OAuth2Credentials) :=
  locked_get_over refresh.

End Firestore.

(** ** Construction

    [Firestore()] and [GoogleCalendarStorage(key)] act on the process, not on
    the database: the registry of Firebase apps ([firebase_admin._apps], app
    name to the project of its options) and the environment. *)
Record Process := {
  firebase_apps : gmap string string;
  environ : gmap string string
}.

Definition DEFAULT_APP : string := "[DEFAULT]".

(** [initialize_app(ApplicationDefault(), {'projectId': project})]: registers
    the default app, and refuses when there is one already. *)
Definition initialize_app (project : string) (p : Process) : outcome unit * Process :=
  match firebase_apps p !! DEFAULT_APP with
  | Some _ => (Raise ValueError, p)
  | None =>
      (Return tt,
       {| firebase_apps := <[DEFAULT_APP := project]> (firebase_apps p);
          environ := environ p |})
  end.

(** [firestore_client()]: the client of the default app, here the project
    it talks to; there must be a default app. *)
Definition firestore_client (p : Process) : outcome string :=
  match firebase_apps p !! DEFAULT_APP with
  | Some project => Return project
  | None => Raise ValueError
  end.

(** [Firestore.__init__]: the project of [self._db]. The guard and the order
    of the calls are those of the source. How [firebase_admin] resolves the
    project (an empty [projectId] falls back to the credentials' project)
    and the loading of the application default credentials are not
    modelled: what is proved of this function is about the guard only. *)
Definition Firestore_init (p : Process) : outcome string * Process :=
  (* Only initialize Firebase once. *)
  if decide (size (firebase_apps p) = 0%nat) then
    match environ p !! "GOOGLE_CLOUD_PROJECT" with
    | None => (Raise (KeyError "GOOGLE_CLOUD_PROJECT"), p)
    | Some project =>
        match initialize_app project p with
        | (Return _, p') => (firestore_client p', p')
        | (Raise e, p') => (Raise e, p')
        end
    end
  else (firestore_client p, p).

(** [GoogleCalendarStorage.__init__]: the storage, with the project of its
    [Firestore()]. *)
Definition GoogleCalendarStorage_init (key : string) (p : Process) :
    outcome (GoogleCalendarStorage * string) * Process :=
  match Firestore_init p with
  | (Return project, p') => (Return ({| _key := key |}, project), p')
  | (Raise e, p') => (Raise e, p')
  end.

(** ** A test bench

    Three credentials; a codec that knows the blob of each (the JSON texts
    are named, not spelled out) and rejects every other value, as [from_json]
    rejects what is not the JSON of a credential; a clock at 1000; and a
    token endpoint with one fixed reply. *)
Module Fixture.

Definition credentials_with (tok : string) (expiry : option Z) (inv : bool) : Credentials :=
  {| access_token := tok; client_id := "accent.apps.googleusercontent.com";
     client_secret := "s3cret"; refresh_token := "1/refresh";
     token_expiry := expiry; token_uri := "https://oauth2.googleapis.com/token";
     user_agent := "accent"; invalid := inv |}.

(** valid until 5000 *)
Definition fresh : Credentials := credentials_with "ya29.fresh" (Some 5000) false.
(** ran out at 100, not marked invalid *)
Definition lapsed : Credentials := credentials_with "ya29.lapsed" (Some 100) false.
(** marked invalid *)
Definition flagged : Credentials := credentials_with "ya29.flagged" (Some 100) true.

Definition blobs : list (string * Credentials) :=
  [("fresh.json", fresh); ("lapsed.json", lapsed); ("flagged.json", flagged)].

#[local] Instance Credentials_eq_dec : EqDecision Credentials.
Proof. solve_decision. Defined.

Definition table_to_json (c : Credentials) : string :=
  match list_find (λ p, p.2 = c) blobs with
  | Some (_, p) => p.1
  | None => "{}"
  end.

Definition table_from_json (v : value) : option Credentials :=
  match v with
  | VStr s => (list_to_map blobs : gmap string Credentials) !! s
  | _ => None
  end.

Definition bench (reply : token_response) : Collaborators :=
  {| to_json := table_to_json; from_json := table_from_json; utcnow := 1000;
     token_endpoint := λ _ _, reply |}.

Definition refusing : Collaborators := bench (TokenRefused 400 (Some "invalid_grant")).
Definition granting : Collaborators :=
  bench (TokenGranted "ya29.renewed" None (Some 3600)).

(** A world with one API key and the given user documents. *)
Definition world_of (us : gmap string (gmap string value)) : World :=
  {| db := {| collection.api_keys := {[ "google_maps" := {[ "api_key" := VStr "AIza-maps" ]} ]};
              collection.oauth_clients := ∅;
              collection.users := us |};
     log := []; token_requests := [] |}.

(** The document of a user who has a time zone and a credential blob. *)
Definition profile (blob : value) : gmap string value :=
  {[ "time_zone" := VStr "Europe/Zurich"; credentials_field := blob ]}.

Definition alice : GoogleCalendarStorage := {| _key := "alice" |}.

End Fixture.

(** An operation raises [DataError] in a world. *)
Definition raises_data_error {A} (m : M A) (w : World) : Prop :=
  ∃ msg, (m w).1 = Raise (DataError msg).

(** A simple field name, [[_a-zA-Z][_a-zA-Z0-9]*]: the keys that [update]
    reads as the name of one top-level field (a key with a dot is a path
    into a map, and other characters need quoting). *)
Definition is_name_start (a : Ascii.ascii) : bool :=
  let n := Ascii.N_of_ascii a in
  ((65 <=? n) && (n <=? 90) || (97 <=? n) && (n <=? 122) || (n =? 95))%N.

Definition is_name_char (a : Ascii.ascii) : bool :=
  let n := Ascii.N_of_ascii a in
  is_name_start a || ((48 <=? n) && (n <=? 57))%N.

Fixpoint all_chars (p : Ascii.ascii → bool) (s : string) : bool :=
  match s with
  | EmptyString => true
  | String a rest => p a && all_chars p rest
  end.

Definition simple_field_name (f : string) : bool :=
  match f with
  | EmptyString => false
  | String a rest => is_name_start a && all_chars is_name_char rest
  end.

(** A payload that [update] accepts and this model covers: not empty (the
    client refuses an empty update), every key a simple field name. *)
Definition plain_payload (fields : gmap string field_write) : Prop :=
  fields ≠ ∅ ∧ map_Forall (λ f _, simple_field_name f = true) fields.

(** *** What the store takes

    The client and the store refuse some keys and some values; the operations
    above are written for the ones they take, and the properties that depend
    on a write or on a lookup by key succeeding say so with the predicates
    below. (The quantitative limits of the store, the size of a document
    and the depth of its maps, are outside the model.) *)

(** A name of the form [__.*__], which the store reserves. *)
Definition reserved_name (s : string) : bool :=
  String.prefix "__" s && String.prefix "__" (String.rev s).

Definition is_slash (a : Ascii.ascii) : bool := (Ascii.N_of_ascii a =? 47)%N.

(** A document id: not empty, at most 1500 bytes, without a slash (an id
    with a slash is a path: [collection('users').document("a/b")] raises and
    ["a/b/c"] names a document of a sub-collection), not [.] or [..], and
    not reserved. *)
Definition valid_document_id (id : string) : bool :=
  negb (String.eqb id "")
  && (String.length id <=? 1500)%nat
  && all_chars (λ a, negb (is_slash a)) id
  && negb (String.eqb id ".") && negb (String.eqb id "..")
  && negb (reserved_name id).

(** A field name as [set] takes it, at the top of the data or inside a map:
    not empty, at most 1500 bytes, not reserved. *)
Definition valid_field_name (f : string) : bool :=
  negb (String.eqb f "") && (String.length f <=? 1500)%nat && negb (reserved_name f).

(** A value the client can encode: every integer in it fits 64 bits, and
    every map in it has valid field names. *)
Fixpoint storable (v : value) : bool :=
  match v with
  | VInt z => bool_decide (- 2 ^ 63 ≤ z < 2 ^ 63)
  | VMap m => map_fold (λ k w b, valid_field_name k && storable w && b) true m
  | _ => true
  end.

(** The data of a [set_user] that the store takes for the key. *)
Definition accepted_set (key : string) (data : gmap string value) : Prop :=
  valid_document_id key = true ∧ storable (VMap data) = true.


(** *** Paths into a document *)

(** The value at a path of field names, going through maps. *)
Fixpoint lookup_path (v : value) (p : list string) : option value :=
  match p with
  | [] => Some v
  | k :: p' =>
      match v with
      | VMap m => m !! k ≫= λ w, lookup_path w p'
      | _ => None
      end
  end.

(** A leaf of the data of a merge-write: a value that is not a map, or the
    empty map. A merge-write writes the leaves of its data. *)
Definition is_leaf (v : value) : bool :=
  match v with
  | VMap m => bool_decide (m = ∅)
  | _ => true
  end.

(** The path [p] below a field is out of reach of the merge-write of the
    value [v] to that field: [v] is a map that is not empty, and [p] leaves
    it, at once or further down, through a key it does not have. *)
Fixpoint out_of_reach (v : value) (p : list string) : bool :=
  match p, v with
  | k :: p', VMap m =>
      negb (bool_decide (m = ∅))
      && match m !! k with
         | None => true
         | Some w => out_of_reach w p'
         end
  | _, _ => false
  end.

(** The path [p] into a document is out of reach of the merge-write of
    [data]: its first field is not in [data], or the rest of it is out of
    reach of the value that [data] has for that field. *)
Definition kept_by (data : gmap string value) (p : list string) : bool :=
  match p with
  | [] => false
  | k :: p' =>
      match data !! k with
      | None => true
      | Some w => out_of_reach w p'
      end
  end.

(** The ways [google_calendar_credentials key] can run in a world [w], each
    with its result and the world it leaves. *)
Inductive credentials_path {env : Collaborators} (key : string) (w : World) :
    outcome (option OAuth2Credentials) → World → Prop :=
| path_no_user :
    collection.users (db w) !! key = None →
    credentials_path key w (Return None) (logged WARNING "User not found." w)
| path_no_field doc :
    collection.users (db w) !! key = Some doc →
    doc !! credentials_field = None →
    credentials_path key w (Return None)
      (logged WARNING "Failed to load Google Calendar credentials." w)
| path_unparseable doc blob :
    collection.users (db w) !! key = Some doc →
    doc !! credentials_field = Some blob →
    from_json blob = None →
    credentials_path key w (Raise ValueError) w
| path_usable doc blob st :
    collection.users (db w) !! key = Some doc →
    doc !! credentials_field = Some blob →
    from_json blob = Some st →
    invalid st = false →
    credentials_path key w (Return (Some {| state := st; store := None |})) w
| path_granted doc blob st tok rt expires_in :
    collection.users (db w) !! key = Some doc →
    doc !! credentials_field = Some blob →
    from_json blob = Some st →
    invalid st = true →
    token_endpoint (token_requests w) (refresh_request st) = TokenGranted tok rt expires_in →
    credentials_path key w
      (Return (Some {| state := granted st tok rt ((λ s, s + utcnow) <$> expires_in);
                       store := None |}))
      (requested (refresh_request st)
         (logged INFO "Refreshing Google Calendar credentials." w))
| path_refused doc blob st status err :
    collection.users (db w) !! key = Some doc →
    doc !! credentials_field = Some blob →
    from_json blob = Some st →
    invalid st = true →
    token_endpoint (token_requests w) (refresh_request st) = TokenRefused status err →
    credentials_path key w (Return None)
      (stored key (delete credentials_field doc)
         (logged WARNING "Deleting Google Calendar credentials."
            (logged WARNING
               ("Google Calendar refresh failed: " +:+ refusal_message status err)
               (requested (refresh_request st)
                  (logged INFO "Refreshing Google Calendar credentials." w)))))
| path_transport_failure doc blob st :
    collection.users (db w) !! key = Some doc →
    doc !! credentials_field = Some blob →
    from_json blob = Some st →
    invalid st = true →
    token_endpoint (token_requests w) (refresh_request st) = TransportFailure →
    credentials_path key w (Raise TransportError)
      (requested (refresh_request st)
         (logged INFO "Refreshing Google Calendar credentials." w)).

(** What [locked_get] makes of the result of [google_calendar_credentials]:
    the store is attached to a credential, the rest is passed on. *)
Definition attached (self : GoogleCalendarStorage)
    (r : outcome (option OAuth2Credentials)) : outcome (option OAuth2Credentials) :=
  match r with
  | Return (Some credentials) => Return (Some (set_store self credentials))
  | other => other
  end.

(** A value that is not a map: [set(merge=True)] and [update] both store it
    as it is. *)
Definition is_scalar (v : value) : bool :=
  match v with
  | VMap _ => false
  | _ => true
  end.

(** The number of maps in a value, the measure for induction on values. *)
Fixpoint value_size (v : value) : nat :=
  match v with
  | VMap m => S (map_fold (λ _ w n, (value_size w + n)%nat) 0%nat m)
  | _ => 0%nat
  end.

(** The configuration collections of [w'] are those of [w]. *)
Definition config_kept (w w' : World) : Prop :=
  collection.api_keys (db w') = collection.api_keys (db w)
  ∧ collection.oauth_clients (db w') = collection.oauth_clients (db w).

(** [w'] has a user document for exactly the keys [w] has one for. *)
Definition user_keys_kept (w w' : World) : Prop :=
  dom (collection.users (db w')) = dom (collection.users (db w)).

(** Unfolds the monad and the logging of a run. *)
Ltac run :=
  unfold mbind, M_bind, mret, M_ret, raise, lift, warning, info, error, logging;
  simpl.

(** ** Facts about the store *)

Lemma lookup_merge_write (data doc : gmap string value) (f : string) :
  merge_write data doc !! f =
    match data !! f with
    | Some v => Some (merge_value v (doc !! f))
    | None => doc !! f
    end.
Proof.
  unfold merge_write. rewrite lookup_union, map_lookup_imap.
  destruct (data !! f) as [v|]; simpl.
  - by destruct (doc !! f).
  - by rewrite (left_id None _).
Qed.

Lemma lookup_field_update (fields : gmap string field_write)
    (doc : gmap string value) (f : string) :
  field_update fields doc !! f = apply_write (fields !! f) (doc !! f).
Proof.
  unfold field_update. rewrite lookup_merge.
  by destruct (fields !! f), (doc !! f).
Qed.

Lemma field_update_assign (f : string) (v : value) (doc : gmap string value) :
  field_update {[ f := Assign v ]} doc = <[ f := v ]> doc.
Proof.
  apply map_eq; intros g. rewrite lookup_field_update.
  destruct (decide (f = g)) as [->|Hne].
  - by rewrite lookup_singleton_eq, lookup_insert_eq.
  - by rewrite lookup_singleton_ne, lookup_insert_ne.
Qed.

Lemma field_update_delete (f : string) (doc : gmap string value) :
  field_update {[ f := DELETE_FIELD ]} doc = delete f doc.
Proof.
  apply map_eq; intros g. rewrite lookup_field_update.
  destruct (decide (f = g)) as [->|Hne].
  - by rewrite lookup_singleton_eq, lookup_delete_eq.
  - by rewrite lookup_singleton_ne, lookup_delete_ne.
Qed.

Lemma merge_value_leaf (v : value) (old : option value) :
  is_leaf v = true → merge_value v old = v.
Proof.
  destruct v as [| | | |m]; try done. simpl. intros Hm.
  apply bool_decide_eq_true in Hm. subst m. by destruct (decide _).
Qed.

(** Under a field that is merge-written, every leaf of the new value is
    there afterwards. *)
Lemma lookup_path_merge_value_leaf (p : list string) (new v : value)
    (old : option value) :
  lookup_path new p = Some v → is_leaf v = true →
  lookup_path (merge_value new old) p = Some v.
Proof.
  revert new old. induction p as [|k p IH]; intros new old Hp Hv.
  - injection Hp as ->. by rewrite merge_value_leaf.
  - destruct new as [| | | |m]; try done. simpl in Hp.
    destruct (m !! k) as [w|] eqn:Hk; [|done]. simpl in Hp.
    cbn [merge_value]. destruct (decide (m = ∅)) as [->|_]; [done|].
    cbn [lookup_path]. change (map_imap _ m ∪ ?b) with (merge_write m b).
    rewrite lookup_merge_write, Hk. simpl. by apply IH.
Qed.

(** Under a field that is merge-written, what is out of reach of the new
    value is as it was. *)
Lemma lookup_path_merge_value_kept (p : list string) (new : value)
    (old : option value) :
  out_of_reach new p = true →
  lookup_path (merge_value new old) p = old ≫= λ v, lookup_path v p.
Proof.
  revert new old. induction p as [|k p IH]; intros new old Hp.
  - by destruct new.
  - destruct new as [| | | |m]; try done. simpl in Hp.
    apply andb_true_iff in Hp as [Hne Hp].
    apply negb_true_iff, bool_decide_eq_false in Hne.
    cbn [merge_value]. destruct (decide (m = ∅)) as [|_]; [done|].
    cbn [lookup_path]. change (map_imap _ m ∪ ?b) with (merge_write m b).
    rewrite lookup_merge_write.
    destruct (m !! k) as [w|] eqn:Hk; simpl.
    + rewrite (IH _ _ Hp). by destruct old as [[| | | |o]|].
    + by destruct old as [[| | | |o]|].
Qed.

Lemma lookup_path_merge_write_leaf (data doc : gmap string value)
    (p : list string) (v : value) :
  p ≠ [] → lookup_path (VMap data) p = Some v → is_leaf v = true →
  lookup_path (VMap (merge_write data doc)) p = Some v.
Proof.
  destruct p as [|k p]; [done|]. intros _ Hp Hv. simpl in *.
  rewrite lookup_merge_write.
  destruct (data !! k) as [w|]; [|done]. simpl in *.
  by apply lookup_path_merge_value_leaf.
Qed.

Lemma lookup_path_merge_write_kept (data doc : gmap string value) (p : list string) :
  kept_by data p = true →
  lookup_path (VMap (merge_write data doc)) p = lookup_path (VMap doc) p.
Proof.
  destruct p as [|k p]; [done|]. simpl. intros Hp.
  rewrite lookup_merge_write.
  destruct (data !! k) as [w|]; [|done]. simpl.
  by apply lookup_path_merge_value_kept.
Qed.

(** ** How the operations run *)

Section Runs.
Context {env : Collaborators}.
Implicit Types (key : string) (w : World) (doc : gmap string value).

Lemma run_update_user_missing key fields w :
  collection.users (db w) !! key = None →
  update_user key fields w = (Return tt, logged ERROR "User not found for update." w).
Proof. intros Hu. unfold update_user, document_get. run. by rewrite Hu. Qed.

Lemma run_update_user_existing key fields w doc :
  collection.users (db w) !! key = Some doc →
  update_user key fields w = (Return tt, stored key (field_update fields doc) w).
Proof.
  intros Hu. unfold update_user, document_get, document_update. run.
  by rewrite !Hu.
Qed.

Lemma run_user key w :
  user key w =
    match collection.users (db w) !! key with
    | Some doc => (Return (Some doc), w)
    | None => (Return None, logged WARNING "User not found." w)
    end.
Proof. unfold user, document_get. run. by destruct (_ !! key). Qed.

Lemma lookup_stored key doc w :
  collection.users (db (stored key doc w)) !! key = Some doc.
Proof. simpl. apply lookup_insert_eq. Qed.

(** The paths of [google_calendar_credentials], over any [refresh]. *)
Section Over.
Variable refresh : OAuth2Credentials → M OAuth2Credentials.

Lemma run_credentials_no_user key w :
  collection.users (db w) !! key = None →
  google_calendar_credentials_over refresh key w
  = (Return None, logged WARNING "User not found." w).
Proof.
  intros Hu. unfold google_calendar_credentials_over. run.
  by rewrite run_user, Hu.
Qed.

Lemma run_credentials_no_field key w doc :
  collection.users (db w) !! key = Some doc →
  doc !! credentials_field = None →
  google_calendar_credentials_over refresh key w
  = (Return None, logged WARNING "Failed to load Google Calendar credentials." w).
Proof.
  intros Hu Hf. unfold google_calendar_credentials_over. run.
  rewrite run_user, Hu. unfold snapshot_get. by rewrite Hf.
Qed.

Lemma run_credentials_unparseable key w doc blob :
  collection.users (db w) !! key = Some doc →
  doc !! credentials_field = Some blob →
  from_json blob = None →
  google_calendar_credentials_over refresh key w = (Raise ValueError, w).
Proof.
  intros Hu Hf Hj. unfold google_calendar_credentials_over. run.
  rewrite run_user, Hu. unfold snapshot_get. by rewrite Hf, Hj.
Qed.

Lemma run_credentials_usable key w doc blob st :
  collection.users (db w) !! key = Some doc →
  doc !! credentials_field = Some blob →
  from_json blob = Some st →
  invalid st = false →
  google_calendar_credentials_over refresh key w
  = (Return (Some {| state := st; store := None |}), w).
Proof.
  intros Hu Hf Hj Hi. unfold google_calendar_credentials_over. run.
  rewrite run_user, Hu. unfold snapshot_get. by rewrite Hf, Hj, Hi.
Qed.

End Over.

(** A credential marked invalid always counts as expired, so the check
    before the refresh never sends such an object straight to deletion. *)
Lemma invalid_access_token_expired (st : Credentials) :
  invalid st = true → access_token_expired st = true.
Proof. intros Hi. unfold access_token_expired. by rewrite Hi. Qed.

Lemma run_refresh_unattached (st : Credentials) w :
  refresh {| state := st; store := None |} w
  = do_refresh_request {| state := st; store := None |} w.
Proof. reflexivity. Qed.

(** The inner read of [refresh] is [locked_get] itself. *)
Lemma google_calendar_credentials_over_refresh key w :
  google_calendar_credentials_over do_refresh_request key w
  = google_calendar_credentials key w.
Proof. reflexivity. Qed.

Lemma locked_get_over_refresh (self : GoogleCalendarStorage) w :
  locked_get_over do_refresh_request self w = locked_get self w.
Proof. reflexivity. Qed.

Lemma run_credentials_granted key w doc blob st tok rt expires_in :
  collection.users (db w) !! key = Some doc →
  doc !! credentials_field = Some blob →
  from_json blob = Some st →
  invalid st = true →
  token_endpoint (token_requests w) (refresh_request st) = TokenGranted tok rt expires_in →
  google_calendar_credentials key w
  = (Return (Some {| state := granted st tok rt ((λ s, s + utcnow) <$> expires_in);
                     store := None |}),
     requested (refresh_request st)
       (logged INFO "Refreshing Google Calendar credentials." w)).
Proof.
  intros Hu Hf Hj Hi He.
  unfold google_calendar_credentials, google_calendar_credentials_over. run.
  rewrite run_user, Hu. unfold snapshot_get. rewrite Hf, Hj, Hi. simpl.
  rewrite (invalid_access_token_expired st Hi).
  unfold try_except, refresh, do_refresh_request, post_token_request. run.
  by rewrite He.
Qed.

Lemma run_credentials_refused key w doc blob st status err :
  collection.users (db w) !! key = Some doc →
  doc !! credentials_field = Some blob →
  from_json blob = Some st →
  invalid st = true →
  token_endpoint (token_requests w) (refresh_request st) = TokenRefused status err →
  google_calendar_credentials key w
  = (Return None,
     stored key (delete credentials_field doc)
       (logged WARNING "Deleting Google Calendar credentials."
          (logged WARNING ("Google Calendar refresh failed: " +:+ refusal_message status err)
             (requested (refresh_request st)
                (logged INFO "Refreshing Google Calendar credentials." w))))).
Proof.
  intros Hu Hf Hj Hi He.
  unfold google_calendar_credentials, google_calendar_credentials_over. run.
  rewrite run_user, Hu. unfold snapshot_get. rewrite Hf, Hj, Hi. simpl.
  rewrite (invalid_access_token_expired st Hi).
  unfold try_except, refresh, do_refresh_request, post_token_request. run.
  rewrite He.
  destruct err as [msg|]; simpl;
    unfold delete_google_calendar_credentials;
    (erewrite run_update_user_existing by (simpl; exact Hu));
    by rewrite field_update_delete.
Qed.

Lemma run_credentials_transport_failure key w doc blob st :
  collection.users (db w) !! key = Some doc →
  doc !! credentials_field = Some blob →
  from_json blob = Some st →
  invalid st = true →
  token_endpoint (token_requests w) (refresh_request st) = TransportFailure →
  google_calendar_credentials key w
  = (Raise TransportError,
     requested (refresh_request st)
       (logged INFO "Refreshing Google Calendar credentials." w)).
Proof.
  intros Hu Hf Hj Hi He.
  unfold google_calendar_credentials, google_calendar_credentials_over. run.
  rewrite run_user, Hu. unfold snapshot_get. rewrite Hf, Hj, Hi. simpl.
  rewrite (invalid_access_token_expired st Hi).
  unfold try_except, refresh, do_refresh_request, post_token_request. run.
  by rewrite He.
Qed.

(** With a store attached, a granted refresh is saved through it. *)
Lemma run_do_refresh_request_attached (st : Credentials) (s : GoogleCalendarStorage)
    w doc tok rt expires_in :
  collection.users (db w) !! _key s = Some doc →
  token_endpoint (token_requests w) (refresh_request st) = TokenGranted tok rt expires_in →
  let st' := granted st tok rt ((λ s, s + utcnow) <$> expires_in) in
  do_refresh_request {| state := st; store := Some s |} w
  = (Return {| state := st'; store := Some s |},
     stored (_key s) (<[ credentials_field := VStr (to_json st') ]> doc)
       (requested (refresh_request st) w)).
Proof.
  intros Hu He st'. unfold do_refresh_request, post_token_request. run.
  rewrite He. simpl. unfold locked_put, update_google_calendar_credentials.
  erewrite run_update_user_existing by (simpl; exact Hu).
  by rewrite field_update_assign.
Qed.

Lemma run_locked_get (self : GoogleCalendarStorage) w :
  locked_get self w =
    match google_calendar_credentials (_key self) w with
    | (Return (Some credentials), w') => (Return (Some (set_store self credentials)), w')
    | (Return None, w') => (Return None, w')
    | (Raise e, w') => (Raise e, w')
    end.
Proof.
  unfold locked_get, locked_get_over, google_calendar_credentials. run.
  by destruct (google_calendar_credentials_over refresh (_key self) w) as [[[c|]|e] w'].
Qed.

End Runs.

(** ** Properties of the facade *)

(** C7: [update_user] on a key that has no user document (a key that is a
    document id) does nothing but log an error: it returns normally, the
    database is the same afterwards (so no document was created for the
    key), and no token request is made. *)
Theorem update_user_missing_is_noop (key : string)
    (fields : gmap string field_write) (w : World) :
  valid_document_id key = true →
  collection.users (db w) !! key = None →
  ∃ w', update_user key fields w = (Return tt, w')
      ∧ db w' = db w
      ∧ collection.users (db w') !! key = None
      ∧ log w' = log w ++ [(ERROR, "User not found for update.")]
      ∧ token_requests w' = token_requests w.
Proof.
  intros _ Hu. eexists. split; [by apply run_update_user_missing|].
  by repeat split.
Qed.

Lemma update_user_missing_is_noop_witness :
  let w := Fixture.world_of ∅ in
  let fields : gmap string field_write := {[ "time_zone" := Assign (VStr "UTC") ]} in
  valid_document_id "bob" = true
  ∧ collection.users (db w) !! "bob" = None
  ∧ ∃ w', update_user "bob" fields w = (Return tt, w')
        ∧ db w' = db w
        ∧ collection.users (db w') !! "bob" = None
        ∧ log w' = log w ++ [(ERROR, "User not found for update.")]
        ∧ token_requests w' = token_requests w.
Proof.
  do 2 (split; [reflexivity|]).
  apply (update_user_missing_is_noop "bob"); reflexivity.
Defined.

(** C8: for a key and data that the store takes, [set_user] merge-writes
    [data] into the user document of [key]. The document exists afterwards,
    whether or not it did before. A field that [data] does not name keeps
    its value (or stays absent), and so does everything inside a field that
    is out of reach of the data; a field that [data] names holds the merged
    value, in which every leaf of the data, at any depth, is as the data has
    it: a value that is not a map and an empty map replace what was there,
    and a map that is not empty is merged key by key into the map that was
    there. Every other document, the other collections, the log and the
    token requests are as before. In particular, writing [{"a": 1}] and then
    [{"b": 2}] leaves both [a] and [b] on the record. *)
Theorem set_user_merge_write (key : string) (data : gmap string value) (w : World) :
  accepted_set key data →
  let old := default ∅ (collection.users (db w) !! key) in
  (∃ w' doc',
      set_user key data w = (Return tt, w')
      ∧ collection.users (db w') !! key = Some doc'
      ∧ (∀ f, data !! f = None → doc' !! f = old !! f)
      ∧ (∀ f v, data !! f = Some v → doc' !! f = Some (merge_value v (old !! f)))
      ∧ (∀ p v, p ≠ [] → lookup_path (VMap data) p = Some v → is_leaf v = true →
                lookup_path (VMap doc') p = Some v)
      ∧ (∀ p, kept_by data p = true →
              lookup_path (VMap doc') p = lookup_path (VMap old) p)
      ∧ (∀ k, k ≠ key → collection.users (db w') !! k = collection.users (db w) !! k)
      ∧ collection.api_keys (db w') = collection.api_keys (db w)
      ∧ collection.oauth_clients (db w') = collection.oauth_clients (db w)
      ∧ log w' = log w ∧ token_requests w' = token_requests w)
  ∧ (∃ w2 doc2,
      (set_user key {[ "a" := VInt 1 ]};; set_user key {[ "b" := VInt 2 ]}) w
      = (Return tt, w2)
      ∧ collection.users (db w2) !! key = Some doc2
      ∧ doc2 !! "a" = Some (VInt 1)
      ∧ doc2 !! "b" = Some (VInt 2)).
Proof.
  intros _ old. split.
  - eexists _, _. split; [reflexivity|]. simpl.
    split; [apply lookup_insert_eq|].
    split; [intros f Hf; by rewrite lookup_merge_write, Hf|].
    split; [intros f v Hf; by rewrite lookup_merge_write, Hf|].
    split; [intros p v; apply lookup_path_merge_write_leaf|].
    split; [intros p; apply lookup_path_merge_write_kept|].
    split; [intros k Hk; by rewrite lookup_insert_ne|].
    done.
  - eexists _, _. split; [reflexivity|]. simpl.
    split; [apply lookup_insert_eq|].
    rewrite lookup_insert_eq. simpl. split.
    + rewrite lookup_merge_write, lookup_singleton_ne by done.
      by rewrite lookup_merge_write, lookup_singleton_eq.
    + by rewrite lookup_merge_write, lookup_singleton_eq.
Qed.

Lemma set_user_merge_write_witness :
  let prefs : gmap string value := {[ "unit" := VStr "metric"; "lang" := VStr "en" ]} in
  let doc : gmap string value :=
    {[ "time_zone" := VStr "Europe/Zurich"; "prefs" := VMap prefs ]} in
  let w := Fixture.world_of {[ "alice" := doc ]} in
  let data : gmap string value :=
    {[ "home" := VStr "Zurich"; "prefs" := VMap {[ "lang" := VStr "de" ]} ]} in
  accepted_set "alice" data
  ∧ ∃ w' doc',
      set_user "alice" data w = (Return tt, w')
      ∧ collection.users (db w') !! "alice" = Some doc'
      ∧ doc' !! "time_zone" = Some (VStr "Europe/Zurich")
      ∧ doc' !! "home" = Some (VStr "Zurich")
      ∧ lookup_path (VMap doc') ["prefs"; "lang"] = Some (VStr "de")
      ∧ lookup_path (VMap doc') ["prefs"; "unit"] = Some (VStr "metric")
      ∧ collection.users (db w') !! "bob" = None.
Proof.
  intros prefs doc w data.
  assert (accepted_set "alice" data) as Hok by (split; vm_compute; reflexivity).
  split; [exact Hok|].
  destruct (set_user_merge_write "alice" data w Hok)
    as [(w' & doc' & Hrun & Hdoc & Hkeep & Hset & Hleaf & Hkept & Hother & _) _].
  exists w', doc'. split; [exact Hrun|]. split; [exact Hdoc|].
  split; [exact (Hkeep "time_zone" eq_refl)|].
  split; [exact (Hset "home" (VStr "Zurich") eq_refl)|].
  split; [exact (Hleaf ["prefs"; "lang"] (VStr "de") ltac:(discriminate) eq_refl eq_refl)|].
  split; [exact (eq_trans (Hkept ["prefs"; "unit"] eq_refl) eq_refl)|].
  refine (eq_trans (Hother "bob" _) eq_refl). discriminate.
Defined.

(** C9: on an existing user record, [locked_delete] is
    [delete_google_calendar_credentials], which is [update_user] with the
    [DELETE_FIELD] sentinel for the credential field alone; afterwards that
    field is absent from the record, every other field of the record is as
    before, and so is everything else in the world. *)
Theorem locked_delete_removes_field (self : GoogleCalendarStorage)
    (w : World) (doc : gmap string value) :
  collection.users (db w) !! _key self = Some doc →
  locked_delete self = delete_google_calendar_credentials (_key self)
  ∧ delete_google_calendar_credentials (_key self)
    = update_user (_key self) {[ credentials_field := DELETE_FIELD ]}
  ∧ ∃ w' doc',
      locked_delete self w = (Return tt, w')
      ∧ collection.users (db w') !! _key self = Some doc'
      ∧ doc' !! credentials_field = None
      ∧ (∀ f, f ≠ credentials_field → doc' !! f = doc !! f)
      ∧ (∀ k, k ≠ _key self →
           collection.users (db w') !! k = collection.users (db w) !! k)
      ∧ collection.api_keys (db w') = collection.api_keys (db w)
      ∧ collection.oauth_clients (db w') = collection.oauth_clients (db w)
      ∧ log w' = log w ∧ token_requests w' = token_requests w.
Proof.
  intros Hu. do 2 (split; [reflexivity|]).
  eexists _, _. split.
  { unfold locked_delete, delete_google_calendar_credentials.
    rewrite (run_update_user_existing _ _ _ _ Hu), field_update_delete.
    reflexivity. }
  simpl. split; [apply lookup_insert_eq|].
  split; [apply lookup_delete_eq|].
  split; [intros f Hf; by rewrite lookup_delete_ne|].
  split; [intros k Hk; by rewrite lookup_insert_ne|].
  done.
Qed.

Lemma locked_delete_removes_field_witness :
  let doc := Fixture.profile (VStr "fresh.json") in
  let w := Fixture.world_of {[ "alice" := doc ]} in
  collection.users (db w) !! "alice" = Some doc
  ∧ ∃ w' doc',
      locked_delete Fixture.alice w = (Return tt, w')
      ∧ collection.users (db w') !! "alice" = Some doc'
      ∧ doc' !! credentials_field = None
      ∧ doc' !! "time_zone" = Some (VStr "Europe/Zurich").
Proof.
  intros doc w. split; [reflexivity|].
  destruct (locked_delete_removes_field Fixture.alice w doc eq_refl)
    as (_ & _ & w' & doc' & Hrun & Hdoc & Hgone & Hkeep & _).
  exists w', doc'. split; [exact Hrun|]. split; [exact Hdoc|].
  split; [exact Hgone|].
  refine (eq_trans (Hkeep "time_zone" _) eq_refl). discriminate.
Defined.

(** C10: when the user record exists and has no credential field,
    [locked_get] returns [None] after a warning and writes nothing: the
    database is the one it started from and no token request is made. (The
    path that gives up on a refused refresh, by contrast, ends in
    [delete_google_calendar_credentials].) *)
Theorem locked_get_absent_field_reads_only {env : Collaborators}
    (self : GoogleCalendarStorage) (w : World) (doc : gmap string value) :
  collection.users (db w) !! _key self = Some doc →
  doc !! credentials_field = None →
  ∃ w', locked_get self w = (Return None, w')
      ∧ db w' = db w
      ∧ token_requests w' = token_requests w
      ∧ log w' = log w ++ [(WARNING, "Failed to load Google Calendar credentials.")].
Proof.
  intros Hu Hf. eexists. split.
  - rewrite run_locked_get. unfold google_calendar_credentials.
    by rewrite (run_credentials_no_field _ _ _ _ Hu Hf).
  - by repeat split.
Qed.

Lemma locked_get_absent_field_reads_only_witness :
  let doc : gmap string value := {[ "time_zone" := VStr "Europe/Zurich" ]} in
  let w := Fixture.world_of {[ "alice" := doc ]} in
  collection.users (db w) !! "alice" = Some doc
  ∧ doc !! credentials_field = None
  ∧ ∃ w', locked_get (env := Fixture.refusing) Fixture.alice w = (Return None, w')
        ∧ db w' = db w
        ∧ token_requests w' = token_requests w
        ∧ log w' = log w ++ [(WARNING, "Failed to load Google Calendar credentials.")].
Proof.
  intros doc w. do 2 (split; [reflexivity|]).
  apply (locked_get_absent_field_reads_only (env := Fixture.refusing)
           Fixture.alice w doc); reflexivity.
Defined.

(** *** Which operations raise [DataError] *)

Section DataErrors.
Context {env : Collaborators}.
Implicit Types (key : string) (w : World).

Lemma run_api_key (service : string) w :
  _api_key service w =
    match collection.api_keys (db w) !! service with
    | None => (Raise (DataError ("Missing API key for: " +:+ service)), w)
    | Some doc => (snapshot_get doc "api_key", w)
    end.
Proof. unfold _api_key, document_get. run. by destruct (_ !! service). Qed.

Lemma snapshot_get_not_data_error (doc : gmap string value) (f msg : string) :
  snapshot_get doc f ≠ Raise (DataError msg).
Proof. unfold snapshot_get. by destruct (doc !! f). Qed.

Lemma update_user_no_data_error key fields w :
  ¬ raises_data_error (update_user key fields) w.
Proof.
  intros [msg Hr]. revert Hr.
  destruct (collection.users (db w) !! key) as [doc|] eqn:Hu.
  - by rewrite (run_update_user_existing _ _ _ _ Hu).
  - by rewrite (run_update_user_missing _ _ _ Hu).
Qed.

Lemma google_calendar_credentials_no_data_error key w :
  ¬ raises_data_error (google_calendar_credentials key) w.
Proof.
  intros [msg Hr]. revert Hr. unfold google_calendar_credentials.
  destruct (collection.users (db w) !! key) as [doc|] eqn:Hu;
    [|by rewrite (run_credentials_no_user _ _ _ Hu)].
  destruct (doc !! credentials_field) as [blob|] eqn:Hf;
    [|by rewrite (run_credentials_no_field _ _ _ _ Hu Hf)].
  destruct (from_json blob) as [st|] eqn:Hj;
    [|by rewrite (run_credentials_unparseable _ _ _ _ _ Hu Hf Hj)].
  destruct (invalid st) eqn:Hi;
    [|by rewrite (run_credentials_usable _ _ _ _ _ _ Hu Hf Hj Hi)].
  fold google_calendar_credentials.
  destruct (token_endpoint (token_requests w) (refresh_request st))
    as [tok rt expires_in|status err|] eqn:He.
  - by rewrite (run_credentials_granted _ _ _ _ _ _ _ _ Hu Hf Hj Hi He).
  - by rewrite (run_credentials_refused _ _ _ _ _ _ _ Hu Hf Hj Hi He).
  - by rewrite (run_credentials_transport_failure _ _ _ _ _ Hu Hf Hj Hi He).
Qed.

Lemma locked_get_no_data_error (self : GoogleCalendarStorage) w :
  ¬ raises_data_error (locked_get self) w.
Proof.
  intros [msg Hr]. rewrite run_locked_get in Hr.
  destruct (google_calendar_credentials (_key self) w) as [[[c|]|e] w'] eqn:Hg;
    simpl in Hr; try discriminate.
  apply (google_calendar_credentials_no_data_error (_key self) w).
  exists msg. by rewrite Hg.
Qed.

End DataErrors.

(** C6: [_api_key] raises [DataError] exactly when the [api_keys]
    collection has no document for the service; when the document is there,
    the value of its [api_key] field is returned as it is stored and the
    world is left alone. The lookup of the OAuth client secrets raises
    [DataError] exactly when its document is missing, and no other operation
    of the module raises [DataError], in any world and for any arguments. *)
Theorem api_key_data_error {env : Collaborators} (service : string) (w : World) :
  (raises_data_error (_api_key service) w
   ↔ collection.api_keys (db w) !! service = None)
  ∧ (∀ doc stored_key,
       collection.api_keys (db w) !! service = Some doc →
       doc !! "api_key" = Some stored_key →
       _api_key service w = (Return stored_key, w))
  ∧ (raises_data_error google_calendar_secrets w
     ↔ collection.oauth_clients (db w) !! "google_calendar" = None)
  ∧ (∀ key data fields self credentials,
       ¬ raises_data_error (user key) w
       ∧ ¬ raises_data_error users w
       ∧ ¬ raises_data_error (set_user key data) w
       ∧ ¬ raises_data_error (update_user key fields) w
       ∧ ¬ raises_data_error (google_calendar_credentials key) w
       ∧ ¬ raises_data_error (update_google_calendar_credentials key credentials) w
       ∧ ¬ raises_data_error (delete_google_calendar_credentials key) w
       ∧ ¬ raises_data_error (locked_get self) w
       ∧ ¬ raises_data_error (locked_put self credentials) w
       ∧ ¬ raises_data_error (locked_delete self) w).
Proof.
  split; [|split; [|split]].
  - unfold raises_data_error. rewrite run_api_key.
    destruct (collection.api_keys (db w) !! service) as [doc|]; simpl.
    + split; [|done]. intros [msg Hr]. by apply snapshot_get_not_data_error in Hr.
    + split; [done|]. intros _. by eexists.
  - intros doc stored_key Hdoc Hkey. rewrite run_api_key, Hdoc.
    unfold snapshot_get. by rewrite Hkey.
  - unfold raises_data_error, google_calendar_secrets, document_get. run.
    destruct (collection.oauth_clients (db w) !! "google_calendar"); simpl.
    + split; [|done]. by intros [msg Hr].
    + split; [done|]. intros _. by eexists.
  - intros key data fields self credentials.
    split. { intros [msg Hr]. rewrite run_user in Hr. by destruct (_ !! key). }
    split. { by intros [msg Hr]. }
    split. { by intros [msg Hr]. }
    split. { apply update_user_no_data_error. }
    split. { apply google_calendar_credentials_no_data_error. }
    split. { apply update_user_no_data_error. }
    split. { apply update_user_no_data_error. }
    split. { apply locked_get_no_data_error. }
    split; apply update_user_no_data_error.
Qed.

Lemma api_key_data_error_witness :
  let w := Fixture.world_of ∅ in
  _api_key "google_maps" w = (Return (VStr "AIza-maps"), w)
  ∧ raises_data_error (_api_key "open_weather") w.
Proof.
  intros w. split.
  - destruct (api_key_data_error (env := Fixture.refusing) "google_maps" w)
      as (_ & Hstored & _).
    exact (Hstored {[ "api_key" := VStr "AIza-maps" ]} (VStr "AIza-maps") eq_refl eq_refl).
  - destruct (api_key_data_error (env := Fixture.refusing) "open_weather" w)
      as ((_ & Hmissing) & _).
    exact (Hmissing eq_refl).
Defined.

(** ** Properties of the credential storage *)

Lemma unexpired_is_valid {env : Collaborators} (st : Credentials) :
  access_token_expired st = false → invalid st = false.
Proof. unfold access_token_expired. by destruct (invalid st). Qed.

(** C1, as it stands, fails: a stored credential whose access token is
    expired but which is not marked invalid is handed back as it is stored,
    although the token endpoint refuses every refresh; [locked_get] does not
    return [None], makes no request and deletes nothing. *)
Lemma refresh_failure_cleanup_counterexample :
  let w := Fixture.world_of {[ "alice" := Fixture.profile (VStr "lapsed.json") ]} in
  from_json (Collaborators := Fixture.refusing) (VStr "lapsed.json") = Some Fixture.lapsed
  ∧ access_token_expired (env := Fixture.refusing) Fixture.lapsed = true
  ∧ (∀ earlier rq, token_endpoint (Collaborators := Fixture.refusing) earlier rq
                   = TokenRefused 400 (Some "invalid_grant"))
  ∧ locked_get (env := Fixture.refusing) Fixture.alice w
    = (Return (Some {| state := Fixture.lapsed; store := Some Fixture.alice |}), w).
Proof. repeat split. Qed.

(** C1, amended: for a stored credential that is marked invalid, if the
    token endpoint refuses the refresh, [locked_get] returns [None] after
    one token request, the credential field is gone from the user record
    (the other fields are kept), and the next [locked_get] on the same key
    returns [None] as well, without a request and without a write. *)
Theorem refused_refresh_cleanup {env : Collaborators} (self : GoogleCalendarStorage)
    (w : World) (doc : gmap string value) (blob : value) (st : Credentials)
    (status : Z) (err : option string) :
  collection.users (db w) !! _key self = Some doc →
  doc !! credentials_field = Some blob →
  from_json blob = Some st →
  invalid st = true →
  token_endpoint (token_requests w) (refresh_request st) = TokenRefused status err →
  ∃ w1, locked_get self w = (Return None, w1)
      ∧ collection.users (db w1) !! _key self = Some (delete credentials_field doc)
      ∧ token_requests w1 = token_requests w ++ [refresh_request st]
      ∧ ∃ w2, locked_get self w1 = (Return None, w2)
            ∧ db w2 = db w1
            ∧ token_requests w2 = token_requests w1.
Proof.
  intros Hu Hf Hj Hi He. eexists. split.
  { rewrite run_locked_get.
    by rewrite (run_credentials_refused _ _ _ _ _ _ _ Hu Hf Hj Hi He). }
  split; [apply lookup_stored|]. split; [done|].
  eexists. split.
  - rewrite run_locked_get. unfold google_calendar_credentials.
    erewrite run_credentials_no_field;
      [reflexivity | apply lookup_stored | apply lookup_delete_eq].
  - split; reflexivity.
Qed.

Lemma refused_refresh_cleanup_witness :
  let doc := Fixture.profile (VStr "flagged.json") in
  let w := Fixture.world_of {[ "alice" := doc ]} in
  ∃ w1, locked_get (env := Fixture.refusing) Fixture.alice w = (Return None, w1)
      ∧ collection.users (db w1) !! "alice" = Some (delete credentials_field doc)
      ∧ token_requests w1 = token_requests w ++ [refresh_request Fixture.flagged]
      ∧ ∃ w2, locked_get (env := Fixture.refusing) Fixture.alice w1 = (Return None, w2)
            ∧ db w2 = db w1
            ∧ token_requests w2 = token_requests w1.
Proof.
  intros doc w.
  apply (refused_refresh_cleanup (env := Fixture.refusing) Fixture.alice w doc
           (VStr "flagged.json") Fixture.flagged 400 (Some "invalid_grant"));
    reflexivity.
Defined.

(** C2, as it stands, fails twice. A stored credential whose token ran out
    but which is not marked invalid is returned without any token request.
    And when a credential marked invalid is refreshed, the new token lives in
    the returned object only: the user record still holds the old blob. *)
Lemma expiry_refresh_counterexample :
  let unflagged := Fixture.world_of {[ "alice" := Fixture.profile (VStr "lapsed.json") ]} in
  let marked := Fixture.world_of {[ "alice" := Fixture.profile (VStr "flagged.json") ]} in
  (access_token_expired (env := Fixture.granting) Fixture.lapsed = true
   ∧ locked_get (env := Fixture.granting) Fixture.alice unflagged
     = (Return (Some {| state := Fixture.lapsed; store := Some Fixture.alice |}),
        unflagged))
  ∧ (∃ c w', locked_get (env := Fixture.granting) Fixture.alice marked
             = (Return (Some c), w')
           ∧ access_token (state c) = "ya29.renewed"
           ∧ collection.users (db w') !! "alice"
             = Some (Fixture.profile (VStr "flagged.json"))
           ∧ from_json (Collaborators := Fixture.granting) (VStr "flagged.json")
             = Some Fixture.flagged
           ∧ access_token Fixture.flagged = "ya29.flagged").
Proof.
  split; [by repeat split|].
  eexists _, _. split; [vm_compute; reflexivity|].
  by repeat split.
Qed.

(** C2, amended: for a stored credential that is marked invalid, [locked_get]
    makes exactly one request to the token endpoint, whatever the endpoint
    answers, and if the endpoint grants a token it returns the refreshed
    credential object: the new access token, no longer invalid, this storage
    attached. The call does not write to the database: the user record
    keeps the blob it had. A stored credential that is not marked invalid is
    returned as it is stored, without a request, whether its access token is
    expired or not. *)
Theorem invalid_credentials_refreshed_once {env : Collaborators}
    (self : GoogleCalendarStorage) (w : World) (doc : gmap string value)
    (blob : value) (st : Credentials) :
  collection.users (db w) !! _key self = Some doc →
  doc !! credentials_field = Some blob →
  from_json blob = Some st →
  (invalid st = true →
   token_requests (locked_get self w).2 = token_requests w ++ [refresh_request st])
  ∧ (∀ tok rt expires_in,
       invalid st = true →
       token_endpoint (token_requests w) (refresh_request st)
       = TokenGranted tok rt expires_in →
       ∃ c w', locked_get self w = (Return (Some c), w')
             ∧ state c = granted st tok rt ((λ s, s + utcnow) <$> expires_in)
             ∧ access_token (state c) = tok
             ∧ invalid (state c) = false
             ∧ store c = Some self
             ∧ token_requests w' = token_requests w ++ [refresh_request st]
             ∧ db w' = db w)
  ∧ (invalid st = false →
     locked_get self w = (Return (Some {| state := st; store := Some self |}), w)).
Proof.
  intros Hu Hf Hj. split; [|split].
  - intros Hi. rewrite run_locked_get.
    destruct (token_endpoint (token_requests w) (refresh_request st))
      as [tok rt expires_in|status err|] eqn:He.
    + by rewrite (run_credentials_granted _ _ _ _ _ _ _ _ Hu Hf Hj Hi He).
    + by rewrite (run_credentials_refused _ _ _ _ _ _ _ Hu Hf Hj Hi He).
    + by rewrite (run_credentials_transport_failure _ _ _ _ _ Hu Hf Hj Hi He).
  - intros tok rt expires_in Hi He. eexists _, _. split.
    + rewrite run_locked_get.
      by rewrite (run_credentials_granted _ _ _ _ _ _ _ _ Hu Hf Hj Hi He).
    + by repeat split.
  - intros Hi. rewrite run_locked_get. unfold google_calendar_credentials.
    by rewrite (run_credentials_usable _ _ _ _ _ _ Hu Hf Hj Hi).
Qed.

Lemma invalid_credentials_refreshed_once_witness :
  let doc := Fixture.profile (VStr "flagged.json") in
  let w := Fixture.world_of {[ "alice" := doc ]} in
  let lapsed := Fixture.world_of {[ "alice" := Fixture.profile (VStr "lapsed.json") ]} in
  token_requests (locked_get (env := Fixture.refusing) Fixture.alice w).2
  = token_requests w ++ [refresh_request Fixture.flagged]
  ∧ (∃ c w', locked_get (env := Fixture.granting) Fixture.alice w = (Return (Some c), w')
           ∧ state c = granted Fixture.flagged "ya29.renewed" None (Some 4600)
           ∧ access_token (state c) = "ya29.renewed"
           ∧ invalid (state c) = false
           ∧ store c = Some Fixture.alice
           ∧ token_requests w' = token_requests w ++ [refresh_request Fixture.flagged]
           ∧ db w' = db w)
  ∧ locked_get (env := Fixture.granting) Fixture.alice lapsed
    = (Return (Some {| state := Fixture.lapsed; store := Some Fixture.alice |}), lapsed).
Proof.
  intros doc w lapsed. split; [|split].
  - destruct (invalid_credentials_refreshed_once (env := Fixture.refusing)
                Fixture.alice w doc (VStr "flagged.json") Fixture.flagged
                eq_refl eq_refl eq_refl) as (Honce & _).
    exact (Honce eq_refl).
  - destruct (invalid_credentials_refreshed_once (env := Fixture.granting)
                Fixture.alice w doc (VStr "flagged.json") Fixture.flagged
                eq_refl eq_refl eq_refl) as (_ & Hgranted & _).
    exact (Hgranted "ya29.renewed" None (Some 3600) eq_refl eq_refl).
  - destruct (invalid_credentials_refreshed_once (env := Fixture.granting)
                Fixture.alice lapsed (Fixture.profile (VStr "lapsed.json"))
                (VStr "lapsed.json") Fixture.lapsed eq_refl eq_refl eq_refl)
      as (_ & _ & Hkept).
    exact (Hkept eq_refl).
Defined.

(** C3, as it stands, fails twice. A blob that cannot be parsed makes
    [locked_get] raise, and the blob stays where it is. And a blob that
    gives a credential marked invalid is not deleted when the token endpoint
    grants the refresh: the refreshed credential is returned. *)
Lemma bad_blob_counterexample :
  let garbled := Fixture.world_of {[ "alice" := Fixture.profile (VStr "ya29") ]} in
  let marked := Fixture.world_of {[ "alice" := Fixture.profile (VStr "flagged.json") ]} in
  (from_json (Collaborators := Fixture.refusing) (VStr "ya29") = None
   ∧ locked_get (env := Fixture.refusing) Fixture.alice garbled
     = (Raise ValueError, garbled))
  ∧ (from_json (Collaborators := Fixture.granting) (VStr "flagged.json") = Some Fixture.flagged
     ∧ invalid Fixture.flagged = true
     ∧ ∃ c w', locked_get (env := Fixture.granting) Fixture.alice marked
               = (Return (Some c), w')
             ∧ collection.users (db w') !! "alice"
               = Some (Fixture.profile (VStr "flagged.json"))).
Proof.
  split; [by repeat split|].
  do 2 (split; [reflexivity|]).
  eexists _, _. split; [vm_compute; reflexivity|]. reflexivity.
Qed.

(** C3, amended: for a stored blob that gives a credential marked invalid,
    [locked_get] asks the token endpoint once; when the endpoint refuses,
    [locked_get] raises nothing, deletes the blob from the user record and
    returns [None]; when it grants a token, the refreshed credential is
    returned and the record is left as it was. For a stored blob that
    cannot be parsed, the exception of [from_json] reaches the caller and
    the world is left as it was. *)
Theorem bad_blob_handling {env : Collaborators} (self : GoogleCalendarStorage)
    (w : World) (doc : gmap string value) (blob : value) :
  collection.users (db w) !! _key self = Some doc →
  doc !! credentials_field = Some blob →
  (∀ st status err,
     from_json blob = Some st →
     invalid st = true →
     token_endpoint (token_requests w) (refresh_request st) = TokenRefused status err →
     ∃ w', locked_get self w = (Return None, w')
         ∧ collection.users (db w') !! _key self = Some (delete credentials_field doc)
         ∧ token_requests w' = token_requests w ++ [refresh_request st])
  ∧ (∀ st tok rt expires_in,
       from_json blob = Some st →
       invalid st = true →
       token_endpoint (token_requests w) (refresh_request st)
       = TokenGranted tok rt expires_in →
       ∃ c w', locked_get self w = (Return (Some c), w')
             ∧ access_token (state c) = tok
             ∧ db w' = db w
             ∧ token_requests w' = token_requests w ++ [refresh_request st])
  ∧ (from_json blob = None → locked_get self w = (Raise ValueError, w)).
Proof.
  intros Hu Hf. split; [|split].
  - intros st status err Hj Hi He. eexists. split.
    + rewrite run_locked_get.
      by rewrite (run_credentials_refused _ _ _ _ _ _ _ Hu Hf Hj Hi He).
    + split; [apply lookup_stored|done].
  - intros st tok rt expires_in Hj Hi He. eexists _, _. split.
    + rewrite run_locked_get.
      by rewrite (run_credentials_granted _ _ _ _ _ _ _ _ Hu Hf Hj Hi He).
    + by repeat split.
  - intros Hj. rewrite run_locked_get. unfold google_calendar_credentials.
    by rewrite (run_credentials_unparseable _ _ _ _ _ Hu Hf Hj).
Qed.

Lemma bad_blob_handling_witness :
  let doc := Fixture.profile (VStr "flagged.json") in
  let w := Fixture.world_of {[ "alice" := doc ]} in
  let garbled := Fixture.world_of {[ "alice" := Fixture.profile (VStr "ya29") ]} in
  (∃ w', locked_get (env := Fixture.refusing) Fixture.alice w = (Return None, w')
       ∧ collection.users (db w') !! "alice" = Some (delete credentials_field doc)
       ∧ token_requests w' = token_requests w ++ [refresh_request Fixture.flagged])
  ∧ (∃ c w', locked_get (env := Fixture.granting) Fixture.alice w = (Return (Some c), w')
           ∧ access_token (state c) = "ya29.renewed"
           ∧ db w' = db w
           ∧ token_requests w' = token_requests w ++ [refresh_request Fixture.flagged])
  ∧ locked_get (env := Fixture.refusing) Fixture.alice garbled
    = (Raise ValueError, garbled).
Proof.
  intros doc w garbled. split; [|split].
  - destruct (bad_blob_handling (env := Fixture.refusing) Fixture.alice w doc
                (VStr "flagged.json") eq_refl eq_refl) as (Hrefused & _).
    exact (Hrefused Fixture.flagged 400 (Some "invalid_grant") eq_refl eq_refl eq_refl).
  - destruct (bad_blob_handling (env := Fixture.granting) Fixture.alice w doc
                (VStr "flagged.json") eq_refl eq_refl) as (_ & Hgranted & _).
    exact (Hgranted Fixture.flagged "ya29.renewed" None (Some 3600)
             eq_refl eq_refl eq_refl).
  - destruct (bad_blob_handling (env := Fixture.refusing) Fixture.alice garbled
                (Fixture.profile (VStr "ya29")) (VStr "ya29") eq_refl eq_refl)
      as (_ & _ & Hgarbled).
    exact (Hgarbled eq_refl).
Defined.

(** C4, as it stands, fails: for a key that has no user record, [locked_put]
    writes nothing; it logs an error and there is still no record, let alone
    a credential field. *)
Lemma locked_put_counterexample :
  let w := Fixture.world_of ∅ in
  let credentials := {| state := Fixture.fresh; store := None |} in
  ∃ w', locked_put (env := Fixture.refusing) Fixture.alice credentials w = (Return tt, w')
      ∧ db w' = db w
      ∧ collection.users (db w') !! "alice" = None
      ∧ log w' = [(ERROR, "User not found for update.")].
Proof. eexists. split; [vm_compute; reflexivity|]. by repeat split. Qed.

(** C4, amended: for every key that has a user record and every credential
    object, [locked_put] serialises the credential and writes it to the
    credential field of that record with a field update: the field holds
    the serialised credential afterwards, whether or not it was there
    before, every other field of the record is as before, and so is
    everything else in the world. *)
Theorem locked_put_writes_field {env : Collaborators} (self : GoogleCalendarStorage)
    (credentials : OAuth2Credentials) (w : World) (doc : gmap string value) :
  collection.users (db w) !! _key self = Some doc →
  ∃ w' doc',
    locked_put self credentials w = (Return tt, w')
    ∧ collection.users (db w') !! _key self = Some doc'
    ∧ doc' !! credentials_field = Some (VStr (to_json (state credentials)))
    ∧ (∀ f, f ≠ credentials_field → doc' !! f = doc !! f)
    ∧ (∀ k, k ≠ _key self →
         collection.users (db w') !! k = collection.users (db w) !! k)
    ∧ collection.api_keys (db w') = collection.api_keys (db w)
    ∧ collection.oauth_clients (db w') = collection.oauth_clients (db w)
    ∧ log w' = log w ∧ token_requests w' = token_requests w.
Proof.
  intros Hu. eexists _, _. split.
  { unfold locked_put, update_google_calendar_credentials.
    rewrite (run_update_user_existing _ _ _ _ Hu), field_update_assign.
    reflexivity. }
  simpl. split; [apply lookup_insert_eq|].
  split; [apply lookup_insert_eq|].
  split; [intros f Hf; by rewrite lookup_insert_ne|].
  split; [intros k Hk; by rewrite lookup_insert_ne|].
  done.
Qed.

Lemma locked_put_writes_field_witness :
  let doc : gmap string value := {[ "time_zone" := VStr "Europe/Zurich" ]} in
  let w := Fixture.world_of {[ "alice" := doc ]} in
  let credentials := {| state := Fixture.fresh; store := None |} in
  collection.users (db w) !! "alice" = Some doc
  ∧ doc !! credentials_field = None
  ∧ ∃ w' doc',
      locked_put (env := Fixture.refusing) Fixture.alice credentials w = (Return tt, w')
      ∧ collection.users (db w') !! "alice" = Some doc'
      ∧ doc' !! credentials_field = Some (VStr "fresh.json")
      ∧ doc' !! "time_zone" = Some (VStr "Europe/Zurich").
Proof.
  intros doc w credentials. do 2 (split; [reflexivity|]).
  destruct (locked_put_writes_field (env := Fixture.refusing) Fixture.alice
              credentials w doc eq_refl)
    as (w' & doc' & Hrun & Hdoc & Hfield & Hkeep & _).
  exists w', doc'. split; [exact Hrun|]. split; [exact Hdoc|].
  split; [exact Hfield|].
  refine (eq_trans (Hkeep "time_zone" _) eq_refl). discriminate.
Defined.

(** C5, as it stands, fails: on an adapter whose key has no user record, a
    valid credential with an unexpired token that is put and then read
    back comes back as [None]. *)
Lemma round_trip_counterexample :
  let w := Fixture.world_of ∅ in
  let credentials := {| state := Fixture.fresh; store := None |} in
  access_token_expired (env := Fixture.refusing) Fixture.fresh = false
  ∧ from_json (Collaborators := Fixture.refusing)
      (VStr (to_json (Collaborators := Fixture.refusing) Fixture.fresh))
    = Some Fixture.fresh
  ∧ (locked_put (env := Fixture.refusing) Fixture.alice credentials;;
     locked_get (env := Fixture.refusing) Fixture.alice) w
    = (Return None,
       logged WARNING "User not found." (logged ERROR "User not found for update." w)).
Proof. by repeat split. Qed.

(** C5, amended: on an adapter whose key has a user record, for every
    credential object with an unexpired access token (hence not marked
    invalid) that the codec reads back as it was written, [locked_put]
    followed by [locked_get] returns a credential object with the same state
    (the same tokens and expiry), still unexpired and not invalid, with this
    storage attached; no token request is made. *)
Theorem put_get_round_trip {env : Collaborators} (self : GoogleCalendarStorage)
    (credentials : OAuth2Credentials) (w : World) (doc : gmap string value) :
  collection.users (db w) !! _key self = Some doc →
  from_json (VStr (to_json (state credentials))) = Some (state credentials) →
  access_token_expired (state credentials) = false →
  ∃ c w',
    (locked_put self credentials;; locked_get self) w = (Return (Some c), w')
    ∧ state c = state credentials
    ∧ access_token (state c) = access_token (state credentials)
    ∧ refresh_token (state c) = refresh_token (state credentials)
    ∧ token_expiry (state c) = token_expiry (state credentials)
    ∧ access_token_expired (state c) = false
    ∧ invalid (state c) = false
    ∧ store c = Some self
    ∧ token_requests w' = token_requests w.
Proof.
  intros Hu Hj Hx. pose proof (unexpired_is_valid _ Hx) as Hi.
  eexists _, _. split.
  { unfold locked_put, update_google_calendar_credentials.
    unfold mbind at 1, M_bind at 1.
    rewrite (run_update_user_existing _ _ _ _ Hu), field_update_assign.
    rewrite run_locked_get. unfold google_calendar_credentials.
    erewrite run_credentials_usable;
      [reflexivity | apply lookup_stored | apply lookup_insert_eq | exact Hj | exact Hi]. }
  by repeat split.
Qed.

Lemma put_get_round_trip_witness :
  let doc : gmap string value := {[ "time_zone" := VStr "Europe/Zurich" ]} in
  let w := Fixture.world_of {[ "alice" := doc ]} in
  let credentials := {| state := Fixture.fresh; store := None |} in
  ∃ c w',
    (locked_put (env := Fixture.refusing) Fixture.alice credentials;;
     locked_get (env := Fixture.refusing) Fixture.alice) w = (Return (Some c), w')
    ∧ state c = Fixture.fresh
    ∧ access_token (state c) = "ya29.fresh"
    ∧ refresh_token (state c) = "1/refresh"
    ∧ token_expiry (state c) = Some 5000
    ∧ access_token_expired (env := Fixture.refusing) (state c) = false
    ∧ invalid (state c) = false
    ∧ store c = Some Fixture.alice
    ∧ token_requests w' = token_requests w.
Proof.
  intros doc w credentials.
  apply (put_get_round_trip (env := Fixture.refusing) Fixture.alice credentials w doc);
    reflexivity.
Defined.

(** ** Further properties: every path of the credential lookup *)

Section Paths.
Context {env : Collaborators}.
Implicit Types (key : string) (w : World) (self : GoogleCalendarStorage).

(** Every run of [google_calendar_credentials] follows one of the paths. *)
Lemma google_calendar_credentials_path key w :
  credentials_path key w (google_calendar_credentials key w).1
    (google_calendar_credentials key w).2.
Proof.
  unfold google_calendar_credentials.
  destruct (collection.users (db w) !! key) as [doc|] eqn:Hu;
    [|rewrite (run_credentials_no_user _ _ _ Hu); by constructor].
  destruct (doc !! credentials_field) as [blob|] eqn:Hf;
    [|rewrite (run_credentials_no_field _ _ _ _ Hu Hf); by econstructor].
  destruct (from_json blob) as [st|] eqn:Hj;
    [|rewrite (run_credentials_unparseable _ _ _ _ _ Hu Hf Hj); by econstructor].
  destruct (invalid st) eqn:Hi;
    [|rewrite (run_credentials_usable _ _ _ _ _ _ Hu Hf Hj Hi); by econstructor].
  fold google_calendar_credentials.
  destruct (token_endpoint (token_requests w) (refresh_request st))
    as [tok rt expires_in|status err|] eqn:He.
  - rewrite (run_credentials_granted _ _ _ _ _ _ _ _ Hu Hf Hj Hi He). by econstructor.
  - rewrite (run_credentials_refused _ _ _ _ _ _ _ Hu Hf Hj Hi He). by econstructor.
  - rewrite (run_credentials_transport_failure _ _ _ _ _ Hu Hf Hj Hi He).
    by econstructor.
Qed.

Lemma locked_get_path self w r' w' :
  locked_get self w = (r', w') →
  ∃ r, credentials_path (_key self) w r w' ∧ r' = attached self r.
Proof.
  pose proof (google_calendar_credentials_path (_key self) w) as Hp.
  rewrite run_locked_get.
  destruct (google_calendar_credentials (_key self) w) as [[[c|]|e] w1];
    simpl in *; intros [= <- <-]; eauto.
Qed.

End Paths.

(** ** Further properties of the credential storage *)

(** X1: [locked_get] writes to the database only after a refresh that the
    token endpoint refused: either the database is left as it was, or the
    stored credential was marked invalid, the endpoint refused its refresh,
    [None] is returned, and the one change is that the credential field is
    gone from the record of this key. *)
Theorem locked_get_writes_only_after_refusal {env : Collaborators}
    (self : GoogleCalendarStorage) (w : World) :
  let r := (locked_get self w).1 in
  let w' := (locked_get self w).2 in
  db w' = db w
  ∨ ∃ doc blob st status err,
      collection.users (db w) !! _key self = Some doc
      ∧ doc !! credentials_field = Some blob
      ∧ from_json blob = Some st
      ∧ invalid st = true
      ∧ token_endpoint (token_requests w) (refresh_request st) = TokenRefused status err
      ∧ r = Return None
      ∧ db w' = with_users (<[_key self := delete credentials_field doc]>
                              (collection.users (db w))) (db w).
Proof.
  destruct (locked_get self w) as [r w'] eqn:Hrun. simpl.
  destruct (locked_get_path _ _ _ _ Hrun) as (r0 & Hp & ->).
  inversion Hp; subst; try (by left).
  right. eexists _, _, _, _, _. by repeat split.
Qed.

(** X2: one [locked_get] makes at most one request to the token endpoint,
    and makes it only for a stored credential that is marked invalid; the
    request carries the token URI, client id, client secret and refresh token
    of that credential. *)
Theorem locked_get_single_request {env : Collaborators}
    (self : GoogleCalendarStorage) (w : World) :
  let w' := (locked_get self w).2 in
  token_requests w' = token_requests w
  ∨ ∃ doc blob st,
      collection.users (db w) !! _key self = Some doc
      ∧ doc !! credentials_field = Some blob
      ∧ from_json blob = Some st
      ∧ invalid st = true
      ∧ token_requests w' = token_requests w ++ [refresh_request st].
Proof.
  destruct (locked_get self w) as [r w'] eqn:Hrun. simpl.
  destruct (locked_get_path _ _ _ _ Hrun) as (r0 & Hp & _).
  inversion Hp; subst; try (by left); right; eexists _, _, _; by repeat split.
Qed.

(** X3: a credential that [locked_get] returns has this storage attached,
    is not marked invalid, and was obtained without writing to the database:
    it is the stored credential, or the stored one after a granted refresh. *)
Theorem locked_get_returns_usable {env : Collaborators}
    (self : GoogleCalendarStorage) (w w' : World) (c : OAuth2Credentials) :
  locked_get self w = (Return (Some c), w') →
  store c = Some self
  ∧ invalid (state c) = false
  ∧ db w' = db w
  ∧ ∃ doc blob st,
      collection.users (db w) !! _key self = Some doc
      ∧ doc !! credentials_field = Some blob
      ∧ from_json blob = Some st
      ∧ (state c = st
         ∨ ∃ tok rt expires_in,
             state c = granted st tok rt ((λ s, s + utcnow) <$> expires_in)).
Proof.
  intros Hrun. destruct (locked_get_path _ _ _ _ Hrun) as (r & Hp & Hr).
  inversion Hp; subst; simpl in Hr; try discriminate;
    injection Hr as ->; simpl.
  - repeat split; [done|]. eexists _, _, _. repeat split; eauto.
  - repeat split. eexists _, _, _. repeat split; eauto.
Qed.

Lemma locked_get_returns_usable_witness :
  let w := Fixture.world_of {[ "alice" := Fixture.profile (VStr "fresh.json") ]} in
  let c := {| state := Fixture.fresh; store := Some Fixture.alice |} in
  locked_get (env := Fixture.refusing) Fixture.alice w = (Return (Some c), w)
  ∧ store c = Some Fixture.alice
  ∧ invalid (state c) = false.
Proof.
  intros w c. split; [reflexivity|].
  destruct (locked_get_returns_usable (env := Fixture.refusing) Fixture.alice w w c
              eq_refl) as (Hstore & Hvalid & _).
  by split.
Defined.

(** X4: when the refresh of a stored credential marked invalid ends in
    anything but an answer of the token endpoint (the request itself fails),
    the exception is not caught: [locked_get] raises it, after one request,
    and the stored blob is left in place. *)
Theorem locked_get_transport_failure_propagates {env : Collaborators}
    (self : GoogleCalendarStorage) (w : World) (doc : gmap string value)
    (blob : value) (st : Credentials) :
  collection.users (db w) !! _key self = Some doc →
  doc !! credentials_field = Some blob →
  from_json blob = Some st →
  invalid st = true →
  token_endpoint (token_requests w) (refresh_request st) = TransportFailure →
  ∃ w', locked_get self w = (Raise TransportError, w')
      ∧ db w' = db w
      ∧ token_requests w' = token_requests w ++ [refresh_request st].
Proof.
  intros Hu Hf Hj Hi He. eexists. split.
  - rewrite run_locked_get.
    by rewrite (run_credentials_transport_failure _ _ _ _ _ Hu Hf Hj Hi He).
  - by split.
Qed.

Lemma locked_get_transport_failure_propagates_witness :
  let doc := Fixture.profile (VStr "flagged.json") in
  let w := Fixture.world_of {[ "alice" := doc ]} in
  ∃ w', locked_get (env := Fixture.bench TransportFailure) Fixture.alice w
        = (Raise TransportError, w')
      ∧ db w' = db w
      ∧ token_requests w' = token_requests w ++ [refresh_request Fixture.flagged].
Proof.
  intros doc w.
  apply (locked_get_transport_failure_propagates (env := Fixture.bench TransportFailure)
           Fixture.alice w doc (VStr "flagged.json") Fixture.flagged);
    reflexivity.
Defined.

(** X5: on a key that is a document id and has no user record, none of the
    three operations of the storage raises or changes the database or calls
    the token endpoint: [locked_get] returns [None] after the warning of
    [user], and [locked_put] and [locked_delete] return after the error of
    [update_user]. *)
Theorem storage_without_user_record {env : Collaborators}
    (self : GoogleCalendarStorage) (credentials : OAuth2Credentials) (w : World) :
  valid_document_id (_key self) = true →
  collection.users (db w) !! _key self = None →
  locked_get self w = (Return None, logged WARNING "User not found." w)
  ∧ locked_put self credentials w
    = (Return tt, logged ERROR "User not found for update." w)
  ∧ locked_delete self w = (Return tt, logged ERROR "User not found for update." w).
Proof.
  intros _ Hu. split; [|split].
  - rewrite run_locked_get. unfold google_calendar_credentials.
    by rewrite (run_credentials_no_user _ _ _ Hu).
  - by apply run_update_user_missing.
  - by apply run_update_user_missing.
Qed.

Lemma storage_without_user_record_witness :
  let w := Fixture.world_of ∅ in
  let credentials := {| state := Fixture.fresh; store := None |} in
  valid_document_id "alice" = true
  ∧ locked_get (env := Fixture.refusing) Fixture.alice w
    = (Return None, logged WARNING "User not found." w)
  ∧ locked_put (env := Fixture.refusing) Fixture.alice credentials w
    = (Return tt, logged ERROR "User not found for update." w)
  ∧ locked_delete Fixture.alice w
    = (Return tt, logged ERROR "User not found for update." w).
Proof.
  intros w credentials. split; [reflexivity|].
  apply (storage_without_user_record (env := Fixture.refusing) Fixture.alice
           credentials w); reflexivity.
Defined.

(** ** Further properties of the facade *)

Section Footprints.
Context {env : Collaborators}.
Implicit Types (key : string) (w : World) (self : GoogleCalendarStorage).

Lemma stored_existing_keys key doc doc' w :
  collection.users (db w) !! key = Some doc →
  user_keys_kept w (stored key doc' w).
Proof.
  intros Hu. unfold user_keys_kept. simpl.
  apply dom_insert_lookup_L. by rewrite Hu.
Qed.

Lemma update_user_footprint key fields w :
  config_kept w (update_user key fields w).2
  ∧ user_keys_kept w (update_user key fields w).2.
Proof.
  destruct (collection.users (db w) !! key) as [doc|] eqn:Hu.
  - rewrite (run_update_user_existing _ _ _ _ Hu). simpl.
    split; [done|]. by eapply stored_existing_keys.
  - by rewrite (run_update_user_missing _ _ _ Hu).
Qed.

Lemma google_calendar_credentials_footprint key w :
  config_kept w (google_calendar_credentials key w).2
  ∧ user_keys_kept w (google_calendar_credentials key w).2.
Proof.
  pose proof (google_calendar_credentials_path key w) as Hp.
  destruct (google_calendar_credentials key w) as [r w']. simpl in *.
  inversion Hp; subst; try done.
  split; [done|]. unfold user_keys_kept. simpl.
  apply dom_insert_lookup_L. by eexists.
Qed.

Lemma locked_get_footprint self w :
  config_kept w (locked_get self w).2 ∧ user_keys_kept w (locked_get self w).2.
Proof.
  pose proof (google_calendar_credentials_footprint (_key self) w) as Hfp.
  rewrite run_locked_get.
  by destruct (google_calendar_credentials (_key self) w) as [[[c|]|e] w'].
Qed.

End Footprints.



(** X7: the configuration is never written. The four lookups ([_api_key],
    [google_calendar_secrets], [user], [users]) leave the whole database and
    the token requests as they are, and every other operation leaves the
    [api_keys] and [oauth_clients] collections as they are, whatever its
    arguments and however it ends. *)
Theorem configuration_is_never_written {env : Collaborators}
    (service key : string) (data : gmap string value)
    (fields : gmap string field_write) (self : GoogleCalendarStorage)
    (credentials : OAuth2Credentials) (w : World) :
  (db (_api_key service w).2 = db w
   ∧ token_requests (_api_key service w).2 = token_requests w)
  ∧ (db (google_calendar_secrets w).2 = db w
     ∧ token_requests (google_calendar_secrets w).2 = token_requests w)
  ∧ (db (user key w).2 = db w ∧ token_requests (user key w).2 = token_requests w)
  ∧ (db (users w).2 = db w ∧ token_requests (users w).2 = token_requests w)
  ∧ config_kept w (set_user key data w).2
  ∧ config_kept w (update_user key fields w).2
  ∧ config_kept w (google_calendar_credentials key w).2
  ∧ config_kept w (update_google_calendar_credentials key credentials w).2
  ∧ config_kept w (delete_google_calendar_credentials key w).2
  ∧ config_kept w (locked_get self w).2
  ∧ config_kept w (locked_put self credentials w).2
  ∧ config_kept w (locked_delete self w).2.
Proof.
  split. { rewrite run_api_key. by destruct (_ !! service). }
  split. { unfold google_calendar_secrets, document_get. run.
           by destruct (_ !! "google_calendar"). }
  split. { rewrite run_user. by destruct (_ !! key). }
  split; [done|]. split; [done|].
  split; [apply update_user_footprint|].
  split; [apply google_calendar_credentials_footprint|].
  split; [apply update_user_footprint|].
  split; [apply update_user_footprint|].
  split; [apply locked_get_footprint|].
  split; apply update_user_footprint.
Qed.

(** X8: no operation but [set_user] creates a user document, and none
    removes one: after [update_user], [google_calendar_credentials], the
    update or the deletion of the credentials, [locked_get], [locked_put] or
    [locked_delete], whatever the arguments and however the call ends, the
    keys that have a user document are the same as before. *)
Theorem user_documents_are_created_by_set_user_only {env : Collaborators}
    (key : string) (fields : gmap string field_write) (self : GoogleCalendarStorage)
    (credentials : OAuth2Credentials) (w : World) :
  user_keys_kept w (update_user key fields w).2
  ∧ user_keys_kept w (google_calendar_credentials key w).2
  ∧ user_keys_kept w (update_google_calendar_credentials key credentials w).2
  ∧ user_keys_kept w (delete_google_calendar_credentials key w).2
  ∧ user_keys_kept w (locked_get self w).2
  ∧ user_keys_kept w (locked_put self credentials w).2
  ∧ user_keys_kept w (locked_delete self w).2.
Proof.
  split; [apply update_user_footprint|].
  split; [apply google_calendar_credentials_footprint|].
  split; [apply update_user_footprint|].
  split; [apply update_user_footprint|].
  split; [apply locked_get_footprint|].
  split; apply update_user_footprint.
Qed.

(** *** Updates in sequence *)

Lemma update_user_returns (key : string) (fields : gmap string field_write) (w : World) :
  (update_user key fields w).1 = Return tt.
Proof.
  destruct (collection.users (db w) !! key) as [doc|] eqn:Hu.
  - by rewrite (run_update_user_existing _ _ _ _ Hu).
  - by rewrite (run_update_user_missing _ _ _ Hu).
Qed.

Lemma run_update_user_then {A} (key : string) (fields : gmap string field_write)
    (m : M A) (w : World) :
  (update_user key fields;; m) w = m (update_user key fields w).2.
Proof.
  pose proof (update_user_returns key fields w) as Hr.
  unfold mbind, M_bind. by destruct (update_user key fields w) as [[[]|e] w'].
Qed.

Lemma db_update_user (key : string) (fields : gmap string field_write) (w : World) :
  db (update_user key fields w).2 =
    match collection.users (db w) !! key with
    | Some doc =>
        with_users (<[key := field_update fields doc]> (collection.users (db w))) (db w)
    | None => db w
    end.
Proof.
  destruct (collection.users (db w) !! key) as [doc|] eqn:Hu.
  - by rewrite (run_update_user_existing _ _ _ _ Hu).
  - by rewrite (run_update_user_missing _ _ _ Hu).
Qed.

(** A payload makes an earlier payload on the same document irrelevant when
    it names every field the earlier one names. *)
Lemma field_update_override (earlier later : gmap string field_write)
    (doc : gmap string value) :
  dom earlier ⊆ dom later →
  field_update later (field_update earlier doc) = field_update later doc.
Proof.
  intros Hdom. apply map_eq; intros f. rewrite !lookup_field_update.
  destruct (later !! f) as [[v|]|] eqn:Hl; simpl; try done.
  apply not_elem_of_dom in Hl.
  assert (earlier !! f = None) as -> by (apply not_elem_of_dom; set_solver).
  done.
Qed.

Lemma db_update_user_override (key : string) (earlier later : gmap string field_write)
    (w : World) :
  dom earlier ⊆ dom later →
  db ((update_user key earlier;; update_user key later) w).2
  = db (update_user key later w).2.
Proof.
  intros Hdom. rewrite run_update_user_then, !db_update_user.
  destruct (collection.users (db w) !! key) as [doc|] eqn:Hu; simpl.
  - rewrite lookup_insert_eq, insert_insert_eq.
    by rewrite (field_update_override _ _ _ Hdom).
  - by rewrite Hu.
Qed.

(** X10: how the writes of the storage compose, on any key and in any world.
    A second [locked_put] overwrites the first; [locked_delete] after
    [locked_put] leaves what [locked_delete] alone leaves; [locked_put] after
    [locked_delete] leaves what [locked_put] alone leaves; and a second
    [locked_delete] changes nothing. *)
Theorem storage_writes_compose {env : Collaborators} (self : GoogleCalendarStorage)
    (first second : OAuth2Credentials) (w : World) :
  db ((locked_put self first;; locked_put self second) w).2
  = db (locked_put self second w).2
  ∧ db ((locked_put self first;; locked_delete self) w).2
    = db (locked_delete self w).2
  ∧ db ((locked_delete self;; locked_put self second) w).2
    = db (locked_put self second w).2
  ∧ db ((locked_delete self;; locked_delete self) w).2
    = db (locked_delete self w).2.
Proof.
  unfold locked_put, locked_delete, update_google_calendar_credentials,
    delete_google_calendar_credentials.
  repeat split; apply db_update_user_override; by rewrite !dom_singleton_L.
Qed.

(** X11: the errors of the API-key lookup. For a service without a document
    [_api_key] raises [DataError] with a message that names the service; for
    a document that has no [api_key] field it raises the [KeyError] of the
    snapshot, not [DataError]; in both cases the world is left as it was. *)
Theorem api_key_errors (service : string) (w : World) :
  (collection.api_keys (db w) !! service = None →
   _api_key service w = (Raise (DataError ("Missing API key for: " +:+ service)), w))
  ∧ (∀ doc, collection.api_keys (db w) !! service = Some doc →
            doc !! "api_key" = None →
            _api_key service w = (Raise (KeyError "api_key"), w)).
Proof.
  split.
  - intros Hs. by rewrite run_api_key, Hs.
  - intros doc Hs Hk. rewrite run_api_key, Hs. unfold snapshot_get. by rewrite Hk.
Qed.

Lemma api_key_errors_witness :
  let w := Fixture.world_of ∅ in
  let keyless :=
    set_db {| collection.api_keys := {[ "open_weather" := {[ "owner" := VStr "ops" ]} ]};
              collection.oauth_clients := ∅; collection.users := ∅ |} w in
  _api_key "open_weather" w
  = (Raise (DataError "Missing API key for: open_weather"), w)
  ∧ _api_key "open_weather" keyless = (Raise (KeyError "api_key"), keyless).
Proof.
  intros w keyless. split.
  - destruct (api_key_errors "open_weather" w) as (Hmissing & _).
    exact (Hmissing eq_refl).
  - destruct (api_key_errors "open_weather" keyless) as (_ & Hkeyless).
    exact (Hkeyless {[ "owner" := VStr "ops" ]} eq_refl eq_refl).
Defined.

(** *** Merge-writes *)

Lemma value_size_lookup (m : gmap string value) (k : string) (v : value) :
  m !! k = Some v → (value_size v < value_size (VMap m))%nat.
Proof.
  intros Hk. simpl. rewrite <-(insert_delete_id m k v Hk).
  rewrite map_fold_insert_L; [lia| |apply lookup_delete_eq].
  intros; lia.
Qed.

(** Induction on values: a property that holds of the scalars, and of a map
    whenever it holds of the values in the map, holds of every value. *)
Lemma value_induction (P : value → Prop) :
  (∀ v, is_scalar v = true → P v) →
  (∀ m, map_Forall (λ _ v, P v) m → P (VMap m)) →
  ∀ v, P v.
Proof.
  intros Hscalar Hmap v.
  remember (value_size v) as n eqn:Hn. revert v Hn.
  induction (lt_wf n) as [n _ IH]. intros v ->.
  destruct v as [| | | |m]; try (by apply Hscalar).
  apply Hmap. intros k w Hk.
  eapply IH; [|reflexivity]. by eapply value_size_lookup.
Qed.

Lemma merge_value_scalar (v : value) (old : option value) :
  is_scalar v = true → merge_value v old = v.
Proof. by destruct v. Qed.

Lemma merge_value_map (m : gmap string value) (old : option value) :
  merge_value (VMap m) old =
    if decide (m = ∅) then VMap ∅
    else VMap (merge_write m (match old with Some (VMap o) => o | _ => ∅ end)).
Proof. reflexivity. Qed.

Lemma merge_write_again (data doc : gmap string value) :
  map_Forall (λ _ v, ∀ old, merge_value v (Some (merge_value v old)) = merge_value v old)
    data →
  merge_write data (merge_write data doc) = merge_write data doc.
Proof.
  intros Hdata. apply map_eq; intros f. rewrite !lookup_merge_write.
  destruct (data !! f) as [v|] eqn:Hf; [|done].
  by rewrite (Hdata f v Hf).
Qed.

Lemma merge_value_again (v : value) (old : option value) :
  merge_value v (Some (merge_value v old)) = merge_value v old.
Proof.
  revert old. induction v as [v Hv|m IH] using value_induction; intros old.
  - by rewrite !merge_value_scalar.
  - rewrite (merge_value_map m old).
    destruct (decide (m = ∅)) as [->|Hne]; [done|].
    rewrite merge_value_map. destruct (decide (m = ∅)); [done|].
    by rewrite merge_write_again.
Qed.

(** X12: [set_user] is idempotent: writing the same data twice leaves the
    world that writing it once leaves, for every key, whether or not the
    document existed, and for data nested to any depth. *)
Theorem set_user_idempotent (key : string) (data : gmap string value) (w : World) :
  (set_user key data;; set_user key data) w = set_user key data w.
Proof.
  unfold set_user, document_set_merge. run. unfold stored. simpl.
  rewrite lookup_insert_eq, insert_insert_eq. simpl.
  rewrite merge_write_again; [done|].
  intros f v _ old. apply merge_value_again.
Qed.

(** X13: on an existing user document, an update that assigns values none
    of which is a map does what the merge-write of the same data does:
    [update_user] with those assignments and [set_user] with that data leave
    the same world. (They differ when the document does not exist, where
    only [set_user] writes, and on maps, which [update] replaces and
    [set(merge=True)] merges.) *)
Theorem update_user_of_scalars_is_set_user (key : string) (data : gmap string value)
    (w : World) (doc : gmap string value) :
  collection.users (db w) !! key = Some doc →
  plain_payload (Assign <$> data) →
  map_Forall (λ _ v, is_scalar v = true) data →
  update_user key (Assign <$> data) w = set_user key data w.
Proof.
  intros Hu _ Hscalar. rewrite (run_update_user_existing _ _ _ _ Hu).
  unfold set_user, document_set_merge. rewrite Hu. simpl.
  do 2 f_equal. apply map_eq; intros f.
  rewrite lookup_field_update, lookup_fmap, lookup_merge_write.
  destruct (data !! f) as [v|] eqn:Hf; simpl; [|done].
  by rewrite (merge_value_scalar _ _ (Hscalar f v Hf)).
Qed.

Lemma update_user_of_scalars_is_set_user_witness :
  let doc := Fixture.profile (VStr "fresh.json") in
  let w := Fixture.world_of {[ "alice" := doc ]} in
  let data : gmap string value := {[ "home" := VStr "Zurich" ]} in
  plain_payload (Assign <$> data)
  ∧ update_user "alice" (Assign <$> data) w = set_user "alice" data w.
Proof.
  intros doc w data.
  assert (plain_payload (Assign <$> data)) as Hplain.
  { unfold data. rewrite map_fmap_singleton.
    split; [apply insert_non_empty|]. apply map_Forall_singleton. reflexivity. }
  split; [exact Hplain|].
  apply (update_user_of_scalars_is_set_user "alice" data w doc eq_refl Hplain).
  apply map_Forall_singleton. reflexivity.
Defined.

(** X14: [set_user] makes the record that the storage needs: after
    [set_user] on the key of the storage with data that the store takes,
    whether or not the record existed, [locked_put] followed by [locked_get]
    returns a credential with the state that was put (for a credential with
    an unexpired token that the codec reads back as written), this storage
    attached, and no token request is made. *)
Theorem set_user_then_round_trip {env : Collaborators} (self : GoogleCalendarStorage)
    (data : gmap string value) (credentials : OAuth2Credentials) (w : World) :
  accepted_set (_key self) data →
  from_json (VStr (to_json (state credentials))) = Some (state credentials) →
  access_token_expired (state credentials) = false →
  ∃ c w',
    (set_user (_key self) data;; locked_put self credentials;; locked_get self) w
    = (Return (Some c), w')
    ∧ state c = state credentials
    ∧ store c = Some self
    ∧ token_requests w' = token_requests w.
Proof.
  intros _ Hj Hx. pose proof (unexpired_is_valid _ Hx) as Hi.
  eexists _, _. split.
  { unfold mbind at 1, M_bind at 1. unfold set_user, document_set_merge.
    unfold locked_put, update_google_calendar_credentials.
    rewrite run_update_user_then.
    erewrite run_update_user_existing by apply lookup_stored.
    rewrite field_update_assign, run_locked_get. unfold google_calendar_credentials.
    erewrite run_credentials_usable;
      [reflexivity | apply lookup_stored | apply lookup_insert_eq | exact Hj | exact Hi]. }
  by repeat split.
Qed.

Lemma set_user_then_round_trip_witness :
  let w := Fixture.world_of ∅ in
  let credentials := {| state := Fixture.fresh; store := None |} in
  let data : gmap string value := {[ "home" := VStr "Zurich" ]} in
  accepted_set "alice" data
  ∧ ∃ c w',
      (set_user "alice" data;;
       locked_put (env := Fixture.refusing) Fixture.alice credentials;;
       locked_get (env := Fixture.refusing) Fixture.alice) w
      = (Return (Some c), w')
      ∧ state c = Fixture.fresh
      ∧ store c = Some Fixture.alice
      ∧ token_requests w' = token_requests w.
Proof.
  intros w credentials data.
  assert (accepted_set "alice" data) as Hok by (split; vm_compute; reflexivity).
  split; [exact Hok|].
  apply (set_user_then_round_trip (env := Fixture.refusing) Fixture.alice
           data credentials w Hok); reflexivity.
Defined.

(** X16: what [set_user] writes is what the lookups read: right after a
    [set_user] with a key and data that the store takes, [user] returns the
    merged document for the key, without a warning, and [users] lists the
    key with that document. *)
Theorem set_user_is_visible (key : string) (data : gmap string value) (w : World) :
  accepted_set key data →
  let doc := merge_write data (default ∅ (collection.users (db w) !! key)) in
  (set_user key data;; user key) w = (Return (Some doc), stored key doc w)
  ∧ ∃ l, (set_user key data;; users) w = (Return l, stored key doc w)
       ∧ (key, doc) ∈ l.
Proof.
  intros _ doc. split.
  - unfold mbind at 1, M_bind at 1. unfold set_user, document_set_merge.
    rewrite run_user. by rewrite lookup_stored.
  - eexists. split; [reflexivity|].
    apply elem_of_map_to_list. apply lookup_stored.
Qed.

Lemma set_user_is_visible_witness :
  let w := Fixture.world_of ∅ in
  let data : gmap string value := {[ "home" := VStr "Zurich" ]} in
  accepted_set "alice" data
  ∧ (set_user "alice" data;; user "alice") w
    = (Return (Some data), stored "alice" data w).
Proof.
  intros w data.
  assert (accepted_set "alice" data) as Hok by (split; vm_compute; reflexivity).
  split; [exact Hok|].
  exact (proj1 (set_user_is_visible "alice" data w Hok)).
Defined.

(** X17: the storage that [locked_get] attaches is what saves a later
    refresh. For a stored credential that is not marked invalid, [locked_get]
    returns it with this storage attached, and a [refresh] of the returned
    object that the token endpoint grants writes the new credential to the
    credential field of the user record, through [locked_put], after one
    token request. *)
Theorem refresh_of_returned_credentials_is_saved {env : Collaborators}
    (self : GoogleCalendarStorage) (w : World) (doc : gmap string value)
    (blob : value) (st : Credentials)
    (tok : string) (rt : option string) (expires_in : option Z) :
  collection.users (db w) !! _key self = Some doc →
  doc !! credentials_field = Some blob →
  from_json blob = Some st →
  invalid st = false →
  token_endpoint (token_requests w) (refresh_request st) = TokenGranted tok rt expires_in →
  let st' := granted st tok rt ((λ s, s + utcnow) <$> expires_in) in
  ∃ c w',
    locked_get self w = (Return (Some c), w)
    ∧ refresh c w = (Return {| state := st'; store := Some self |}, w')
    ∧ collection.users (db w') !! _key self
      = Some (<[ credentials_field := VStr (to_json st') ]> doc)
    ∧ token_requests w' = token_requests w ++ [refresh_request st].
Proof.
  intros Hu Hf Hj Hi He st'.
  assert (locked_get self w
          = (Return (Some {| state := st; store := Some self |}), w)) as Hget.
  { rewrite run_locked_get. unfold google_calendar_credentials.
    by rewrite (run_credentials_usable _ _ _ _ _ _ Hu Hf Hj Hi). }
  eexists _, _. split; [exact Hget|]. split.
  - unfold refresh. simpl. unfold mbind at 1, M_bind at 1.
    rewrite locked_get_over_refresh, Hget. simpl.
    rewrite Hi. simpl. rewrite bool_decide_eq_true_2 by done. simpl.
    by apply run_do_refresh_request_attached.
  - split; [apply lookup_stored|done].
Qed.

Lemma refresh_of_returned_credentials_is_saved_witness :
  let doc := Fixture.profile (VStr "lapsed.json") in
  let w := Fixture.world_of {[ "alice" := doc ]} in
  let st' := granted Fixture.lapsed "ya29.renewed" None (Some 4600) in
  ∃ c w',
    locked_get (env := Fixture.granting) Fixture.alice w = (Return (Some c), w)
    ∧ refresh (env := Fixture.granting) c w
      = (Return {| state := st'; store := Some Fixture.alice |}, w')
    ∧ collection.users (db w') !! "alice"
      = Some (<[ credentials_field :=
                   VStr (to_json (Collaborators := Fixture.granting) st') ]> doc)
    ∧ token_requests w' = token_requests w ++ [refresh_request Fixture.lapsed].
Proof.
  intros doc w st'.
  apply (refresh_of_returned_credentials_is_saved (env := Fixture.granting)
           Fixture.alice w doc (VStr "lapsed.json") Fixture.lapsed
           "ya29.renewed" None (Some 3600)); reflexivity.
Defined.

(** ** Further properties: construction *)

Lemma run_Firestore_init_again (p : Process) (project : string) :
  firebase_apps p !! DEFAULT_APP = Some project →
  Firestore_init p = (Return project, p).
Proof.
  intros Hp. unfold Firestore_init, firestore_client.
  destruct (decide (size (firebase_apps p) = 0%nat)) as [Hsize|_].
  - apply map_size_empty_iff in Hsize. by rewrite Hsize, lookup_empty in Hp.
  - by rewrite Hp.
Qed.

(** X19: Firebase is initialised once. After a [Firestore()] that succeeded,
    every later [Firestore()] and [GoogleCalendarStorage(key)] succeeds as a
    client of the same project and leaves the process as it is, whatever the
    environment has become in the meantime, set to another project or not
    set at all. *)
Theorem firebase_is_initialised_once (key : string) (p p1 : Process)
    (project : string) (later : gmap string string) :
  Firestore_init p = (Return project, p1) →
  let p2 := {| firebase_apps := firebase_apps p1; environ := later |} in
  Firestore_init p2 = (Return project, p2)
  ∧ GoogleCalendarStorage_init key p2 = (Return ({| _key := key |}, project), p2).
Proof.
  intros Hinit p2.
  assert (firebase_apps p1 !! DEFAULT_APP = Some project) as Happ.
  { revert Hinit. unfold Firestore_init, initialize_app, firestore_client.
    destruct (decide (size (firebase_apps p) = 0%nat)) as [Hsize|_].
    - destruct (environ p !! "GOOGLE_CLOUD_PROJECT") as [project'|]; [|done].
      destruct (firebase_apps p !! DEFAULT_APP); [done|]. simpl.
      rewrite lookup_insert_eq. intros [= <- <-]. simpl. apply lookup_insert_eq.
    - destruct (firebase_apps p !! DEFAULT_APP) eqn:Hd; [|done].
      by intros [= <- <-]. }
  unfold GoogleCalendarStorage_init.
  by rewrite (run_Firestore_init_again p2 project Happ).
Qed.

Lemma firebase_is_initialised_once_witness :
  let p := {| firebase_apps := ∅;
              environ := {[ "GOOGLE_CLOUD_PROJECT" := "accent-prod" ]} |} in
  let p2 := {| firebase_apps := {[ DEFAULT_APP := "accent-prod" ]}; environ := ∅ |} in
  Firestore_init p2 = (Return "accent-prod", p2)
  ∧ GoogleCalendarStorage_init "alice" p2
    = (Return ({| _key := "alice" |}, "accent-prod"), p2).
Proof.
  intros p p2.
  exact (firebase_is_initialised_once "alice" p
           {| firebase_apps := {[ DEFAULT_APP := "accent-prod" ]}; environ := environ p |}
           "accent-prod" ∅ eq_refl).
Defined.
